(** * schema-enforcer: validator plugins and the command line driver

    A shallow embedding of [schema_enforcer/schemas/validator.py] and of the
    validation loops of [schema_enforcer/cli.py], with the properties the
    specification states about them.

    Python objects are modelled by explicit state passing: a method that
    mutates [self] returns the new object, a function that may raise returns
    an [outcome].  Documents are JSON-like trees ([value]); floating point
    scalars are outside the model. *)

From Stdlib Require Import ZArith Lia Ascii String.
From stdpp Require Import base option list strings gmap.

#[local] Set Warnings "-register-all".
#[local] Set Default Proof Using "Type".
Local Open Scope Z_scope.

(** ** Python data *)

(** The values a parsed YAML or JSON document is made of.  A dict keeps its
    items in insertion order and its keys are strings. *)
Inductive value :=
  | VNone
  | VBool (b : bool)
  | VInt (z : Z)
  | VStr (s : string)
  | VList (l : list value)
  | VDict (d : list (string * value)).

(** ** Exceptions and outcomes *)

Inductive pyexn :=
  | KeyError (key : value)
  | TypeError
  | ValueError
  | AttributeError
  | ImportError (module_name : string)
  | JMESPathError
  | NotImplementedError.

Inductive outcome (A : Type) :=
  | Ret (a : A)
  | Raise (e : pyexn).
Arguments Ret {A} a.
Arguments Raise {A} e.

#[global] Instance outcome_ret : MRet outcome := λ A a, Ret a.
#[global] Instance outcome_bind : MBind outcome := λ A B k m,
  match m with
  | Ret a => k a
  | Raise e => Raise e
  end.

(** [for x in xs: body], threading the state the body updates. *)
Fixpoint for_each {A S} (xs : list A) (body : S → A → outcome S) (s : S)
    : outcome S :=
  match xs with
  | [] => Ret s
  | x :: xs' => s' ← body s x; for_each xs' body s'
  end.

Definition returns {A} (m : outcome A) : bool :=
  match m with Ret _ => true | Raise _ => false end.

(** [d.get(k)] on the items of a dict. *)
Fixpoint dict_get {A} (k : string) (d : list (string * A)) : option A :=
  match d with
  | [] => None
  | (k', v) :: d' => if String.eqb k k' then Some v else dict_get k d'
  end.

(** [k in d]. *)
Definition dict_mem {A} (k : string) (d : list (string * A)) : bool :=
  match dict_get k d with Some _ => true | None => false end.

(** [del d[k]] (the callers check [k in d] first). *)
Fixpoint dict_del {A} (k : string) (d : list (string * A)) : list (string * A) :=
  match d with
  | [] => []
  | (k', v) :: d' => if String.eqb k k' then d' else (k', v) :: dict_del k d'
  end.

(** [d[k] = v]: an existing key keeps its position, a new key goes last. *)
Fixpoint dict_set {A} (k : string) (v : A) (d : list (string * A)) : list (string * A) :=
  match d with
  | [] => [(k, v)]
  | (k', v') :: d' =>
      if String.eqb k k' then (k, v) :: d' else (k', v') :: dict_set k v d'
  end.

(** [bool(v)]. *)
Definition truthy (v : value) : bool :=
  match v with
  | VNone => false
  | VBool b => b
  | VInt z => negb (z =? 0)
  | VStr s => negb (String.eqb s "")
  | VList l => match l with [] => false | _ => true end
  | VDict d => match d with [] => false | _ => true end
  end.

(** [r == v].  [bool] is a subclass of [int], so [True == 1]; a string never
    equals a number; lists compare element-wise and dicts item-wise whatever
    the order of their keys. *)
Fixpoint py_eq (r v : value) : bool :=
  match r, v with
  | VNone, VNone => true
  | VBool a, VBool b => Bool.eqb a b
  | VBool a, VInt z => Z.b2z a =? z
  | VInt z, VBool b => z =? Z.b2z b
  | VInt a, VInt b => a =? b
  | VStr a, VStr b => String.eqb a b
  | VList l1, VList l2 =>
      (fix all2 (l1 l2 : list value) : bool :=
         match l1, l2 with
         | [], [] => true
         | x :: l1', y :: l2' => py_eq x y && all2 l1' l2'
         | _, _ => false
         end) l1 l2
  | VDict d1, VDict d2 =>
      Nat.eqb (length d1) (length d2) &&
      (fix items (d : list (string * value)) : bool :=
         match d with
         | [] => true
         | (k, x) :: d' =>
             match dict_get k d2 with
             | Some y => py_eq x y && items d'
             | None => false
             end
         end) d1
  | _, _ => false
  end.

(** *** [int(v)] *)

(** The ASCII characters [str.strip] and [int] take for white space. *)
Definition is_space (c : ascii) : bool :=
  let n := nat_of_ascii c in
  (Nat.eqb n 32 || (Nat.leb 9 n && Nat.leb n 13)
   || (Nat.leb 28 n && Nat.leb n 31))%bool.

Fixpoint lstrip (s : string) : string :=
  match s with
  | String c s' => if is_space c then lstrip s' else s
  | EmptyString => EmptyString
  end.

Fixpoint rstrip (s : string) : string :=
  match s with
  | String c s' =>
      match rstrip s' with
      | EmptyString => if is_space c then EmptyString else String c EmptyString
      | t => String c t
      end
  | EmptyString => EmptyString
  end.

Definition digit_of (c : ascii) : option Z :=
  let n := nat_of_ascii c in
  if (Nat.leb 48 n && Nat.leb n 57)%bool then Some (Z.of_nat n - 48) else None.

(** Decimal digits with single underscores between them, most significant
    first; [after_digit] tells whether the previous character was a digit. *)
Fixpoint digits (s : string) (acc : Z) (after_digit : bool) : option Z :=
  match s with
  | EmptyString => if after_digit then Some acc else None
  | String c s' =>
      match digit_of c with
      | Some d => digits s' (10 * acc + d) true
      | None =>
          if (Ascii.eqb c "_" && after_digit)%bool then digits s' acc false else None
      end
  end.

(** [int(s)] for a string in base ten: surrounding white space, an optional
    sign, then ASCII digits. *)
Definition int_of_str (s : string) : outcome Z :=
  let body := rstrip (lstrip s) in
  let parsed :=
    match body with
    | String "-" t => Z.opp <$> digits t 0 false
    | String "+" t => digits t 0 false
    | t => digits t 0 false
    end in
  match parsed with
  | Some z => Ret z
  | None => Raise ValueError
  end.

Definition py_int (v : value) : outcome Z :=
  match v with
  | VBool b => Ret (Z.b2z b)
  | VInt z => Ret z
  | VStr s => int_of_str s
  | VNone | VList _ | VDict _ => Raise TypeError
  end.

(** *** [v in r] *)

Definition is_prefix (t s : string) : bool := String.prefix t s.

Fixpoint is_substring (t s : string) : bool :=
  is_prefix t s ||
  match s with
  | String _ s' => is_substring t s'
  | EmptyString => false
  end.

(** Membership of [v] in the container [r]: an element of a list, a
    substring of a string, a key of a dict.  Lists and dicts are not
    hashable, and scalars other than strings are not containers. *)
Definition py_contains (r v : value) : outcome bool :=
  match r with
  | VList l => Ret (existsb (λ x, py_eq x v) l)
  | VStr s =>
      match v with
      | VStr t => Ret (is_substring t s)
      | _ => Raise TypeError
      end
  | VDict d =>
      match v with
      | VStr k => Ret (dict_mem k d)
      | VList _ | VDict _ => Raise TypeError
      | _ => Ret false
      end
  | VNone | VBool _ | VInt _ => Raise TypeError
  end.

(** [for x in v]: the items a [for] loop over [v] visits. *)
Definition py_iter (v : value) : outcome (list value) :=
  match v with
  | VList l => Ret l
  | VDict d => Ret (VStr <$> d.*1)
  | VStr s => Ret ((λ c, VStr (String c EmptyString)) <$> list_ascii_of_string s)
  | VNone | VBool _ | VInt _ => Raise TypeError
  end.

(** ** Validation results *)

(** Modelled from the spec: the class [ValidationResult] of
    [schema_enforcer.validation], which the sources import but do not
    contain.  Its fields are the outcome, the owning schema id, the message
    (present only on a failure) and the context naming what was checked;
    [passed] is its pass/fail predicate. *)
Record ValidationResult := {
  result : string;
  schema_id : string;
  message : option string;
  instance_type : option string;
  instance_name : option string;
  instance_location : option string;
}.

Definition passed (r : ValidationResult) : bool := String.eqb (result r) "PASS".

(** The two results a validator makes. *)
Definition pass_result (i : string) : ValidationResult :=
  {| result := "PASS"; schema_id := i; message := None;
     instance_type := None; instance_name := None; instance_location := None |}.

Definition fail_result (i msg : string) : ValidationResult :=
  {| result := "FAIL"; schema_id := i; message := Some msg;
     instance_type := None; instance_name := None; instance_location := None |}.

(** ** [BaseValidation] *)

Module BaseValidation.

(** A validator object: [id] is the attribute [self.id] resolves to,
    [_results] the list the object owns. *)
Record t := {
  id : string;
  _results : list ValidationResult;
}.

Definition __init__ (cls_id : string) : t :=
  {| id := cls_id; _results := [] |}.

Definition add_validation_error (self : t) (msg : string) : t :=
  {| id := id self;
     _results := _results self ++
       [ {| result := "FAIL"; schema_id := id self; message := Some msg;
            instance_type := None; instance_name := None;
            instance_location := None |} ] |}.

Definition add_validation_pass (self : t) : t :=
  {| id := id self;
     _results := _results self ++
       [ {| result := "PASS"; schema_id := id self; message := None;
            instance_type := None; instance_name := None;
            instance_location := None |} ] |}.

(** Returns the list the object holds, after recording a pass in it when
    it is empty. *)
Definition get_results (self : t) : list ValidationResult * t :=
  let self' :=
    match _results self with
    | [] => add_validation_pass self
    | _ :: _ => self
    end in
  (_results self', self').

Definition clear_results (self : t) : t :=
  {| id := id self; _results := [] |}.

Definition validate (self : t) (data : value) (strict : bool) : outcome t :=
  Raise NotImplementedError.

End BaseValidation.

(** ** [JmesPathModelValidation] *)

Module JmesPathModelValidation.

(** The right-hand side of a rule: a literal, or an expression compiled by
    [jmespath.compile]. *)
Inductive rhs :=
  | Literal (v : value)
  | ParsedResult (expression : string).

(** The object: the inherited state and the attributes a plugin class
    declares. *)
Record t := {
  base : BaseValidation.t;
  left : string;
  right : rhs;
  operator : string;
  error : string;
}.

Definition add_validation_error (self : t) (msg : string) : t :=
  {| base := BaseValidation.add_validation_error (base self) msg;
     left := left self; right := right self;
     operator := operator self; error := error self |}.

(** The inherited [get_results] and [clear_results]. *)
Definition get_results (self : t) : list ValidationResult * t :=
  let '(rs, b) := BaseValidation.get_results (base self) in
  (rs, {| base := b; left := left self; right := right self;
          operator := operator self; error := error self |}).

Definition clear_results (self : t) : t :=
  {| base := BaseValidation.clear_results (base self);
     left := left self; right := right self;
     operator := operator self; error := error self |}.

(** [int(r) OP int(v)]: the left coercion runs first. *)
Definition int_cmp (op : Z → Z → bool) (r v : value) : outcome bool :=
  a ← py_int r; b ← py_int v; mret (op a b).

Definition operators : list (string * (value → value → outcome bool)) :=
  [ ("gt", int_cmp Z.gtb);
    ("gte", int_cmp Z.geb);
    ("eq", λ r v, mret (py_eq r v));
    ("lt", int_cmp Z.ltb);
    ("lte", int_cmp Z.leb);
    ("contains", λ r v, py_contains r v) ].

(** [operators[name]]. *)
Definition operators_getitem (name : string)
    : outcome (value → value → outcome bool) :=
  match dict_get name operators with
  | Some f => Ret f
  | None => Raise (KeyError (VStr name))
  end.

Section Validate.

(** [jmespath.search(expression, data)]; a compiled expression is
    searched by the same function. *)
Variable search : string → value → outcome value.

(** Lines 54 to 57: the right-hand side is searched when it is a compiled
    expression and taken as it is otherwise. *)
Definition resolve_right (self : t) (data : value) : outcome value :=
  match right self with
  | ParsedResult expression => search expression data
  | Literal v => Ret v
  end.

Definition validate (self : t) (data : value) (strict : bool) : outcome t :=
  lhs ← search (left self) data;
  valid ←
    (if truthy lhs then
       rhs ← resolve_right self data;
       op ← operators_getitem (operator self);
       op lhs rhs
     else Ret true);
  mret (if valid : bool then self else add_validation_error self (error self)).

(** A caller validating several documents with one object, without
    clearing its results in between. *)
Definition validate_each (self : t) (docs : list value) (strict : bool)
    : outcome t :=
  for_each docs (λ self data, validate self data strict) self.

(** The comparison a call makes depends on the attributes of the rule and on
    the document, not on the results recorded before. *)
Definition outcome_of (self : t) (data : value) : outcome bool :=
  lhs ← search (left self) data;
  if truthy lhs then
    rhs ← resolve_right self data;
    op ← operators_getitem (operator self);
    op lhs rhs
  else Ret true.

Definition with_results (self : t) (rs : list ValidationResult) : t :=
  {| base := {| BaseValidation.id := BaseValidation.id (base self);
                BaseValidation._results := rs |};
     left := left self; right := right self;
     operator := operator self; error := error self |}.

(** What one call records by itself, that is, on an object whose results
    were cleared just before. *)
Definition recorded (self : t) (data : value) (strict : bool)
    : list ValidationResult :=
  match validate (clear_results self) data strict with
  | Ret self' => BaseValidation._results (base self')
  | Raise _ => []
  end.

End Validate.

(** The inventory example of the specification: [bgp.asn gte 64512]. *)
Definition asn_rule : t :=
  {| base := BaseValidation.__init__ "CheckAsn";
     left := "bgp.asn"; right := Literal (VInt 64512);
     operator := "gte"; error := "ASN is not private" |}.

End JmesPathModelValidation.

(** ** A fragment of JMESPath

    The query language is a library of its own; the properties below hold
    for any [search].  The examples run on the fragment of identifiers joined
    by dots, where a missing key or a value that is not a dict gives
    [None]. *)

Fixpoint split_dots (s cur : string) : list string :=
  match s with
  | EmptyString => [cur]
  | String c s' =>
      if Ascii.eqb c "." then cur :: split_dots s' EmptyString
      else split_dots s' (String.append cur (String c EmptyString))
  end.

Definition field (v : value) (k : string) : value :=
  match v with
  | VDict d => default VNone (dict_get k d)
  | _ => VNone
  end.

Definition search_path (expression : string) (data : value) : outcome value :=
  let keys := split_dots expression EmptyString in
  if existsb (λ k, String.eqb k "") keys then Raise JMESPathError
  else Ret (foldl field data keys).

(** ** Plugin discovery: [is_validator] and [load_validators] *)

Module Plugins.

(** Class objects are told apart by a reference; [mro] lists the proper
    ancestors of a class, nearest first. *)
Definition class_ref := nat.

Definition BaseValidation_ref : class_ref := 0%nat.
Definition JmesPathModelValidation_ref : class_ref := 1%nat.

Record pyclass := {
  ref : class_ref;
  mro : list class_ref;
}.

(** What a module can have as a member. *)
Inductive pyobj :=
  | NotAClass
  | Class (cls : pyclass).

(** [issubclass(obj, BaseValidation)]: a [TypeError] when [obj] is not a
    class. *)
Definition issubclass_BaseValidation (obj : pyobj) : outcome bool :=
  match obj with
  | NotAClass => Raise TypeError
  | Class cls => Ret (bool_decide (BaseValidation_ref ∈ ref cls :: mro cls))
  end.

Definition is_validator (obj : pyobj) : bool :=
  match issubclass_BaseValidation obj with
  | Ret sub =>
      sub &&
      match obj with
      | Class cls =>
          negb (bool_decide
                  (ref cls ∈ [JmesPathModelValidation_ref; BaseValidation_ref]))
      | NotAClass => true
      end
  | Raise _ => false
  end.

(** [inspect.getmembers(module, is_validator)]: the members that satisfy
    the predicate, in the order of their names (the order [members] has). *)
Definition getmembers (members : list (string * pyobj)) : list (string * pyclass) :=
  omap (λ m, match m.2 with
             | Class cls => if is_validator m.2 then Some (m.1, cls) else None
             | NotAClass => None
             end) members.

(** The [id] attributes the class objects carry themselves. *)
Abbreviation attrs := (gmap class_ref string).

(** [getattr(cls, "id")]: the attribute of the first class that has one,
    the class itself first and then its ancestors. *)
Fixpoint lookup_id (a : attrs) (refs : list class_ref) : option string :=
  match refs with
  | [] => None
  | r :: refs' =>
      match a !! r with
      | Some i => Some i
      | None => lookup_id a refs'
      end
  end.

Definition getattr_id (a : attrs) (cls : pyclass) : option string :=
  lookup_id a (ref cls :: mro cls).

(** The object [cls()] makes. *)
Record instance := {
  class_of : pyclass;
  self : BaseValidation.t;
}.

Record loader := {
  class_ids : attrs;
  validators : gmap string instance;
  stdout : list string;
}.

(** [cls.id] once the default is in place, together with the class
    attributes after the assignment [cls.id = name]. *)
Definition resolve_id (a : attrs) (name : string) (cls : pyclass) : string * attrs :=
  match getattr_id a cls with
  | Some i => (i, a)
  | None => (name, <[ref cls := name]> a)
  end.

(** [cls()]: [BaseValidation.__init__] runs, and [self.id] is the id the
    class has.  Plugin classes are taken not to override [__init__] with
    one that raises. *)
Definition instantiate (cls_id : string) (cls : pyclass) : instance :=
  {| class_of := cls; self := BaseValidation.__init__ cls_id |}.

Definition duplicate_line (cls_id : string) : string :=
  String.append "Duplicate validator name: " cls_id.

(** The body of the inner loop. *)
Definition register (st : loader) (member : string * pyclass) : loader :=
  let '(cls_id, a) := resolve_id (class_ids st) member.1 member.2 in
  match validators st !! cls_id with
  | Some _ =>
      {| class_ids := a;
         validators := validators st;
         stdout := stdout st ++ [duplicate_line cls_id] |}
  | None =>
      {| class_ids := a;
         validators := <[cls_id := instantiate cls_id member.2]> (validators st);
         stdout := stdout st |}
  end.

(** A module found by [pkgutil.iter_modules]: importing it raises, or
    gives its members. *)
Record plugin_module := {
  module_name : string;
  load_module : outcome (list (string * pyobj));
}.

(** The outer loop; the loader state is returned next to the outcome so
    that what was printed before an exception is not lost. *)
Fixpoint load_modules (mods : list plugin_module) (st : loader)
    : loader * outcome unit :=
  match mods with
  | [] => (st, Ret ())
  | m :: mods' =>
      match load_module m with
      | Raise e => (st, Raise e)
      | Ret members => load_modules mods' (foldl register st (getmembers members))
      end
  end.

Definition load_validators (mods : list plugin_module) (a : attrs)
    : loader * outcome (gmap string instance) :=
  let '(st, r) :=
    load_modules mods {| class_ids := a; validators := ∅; stdout := [] |} in
  (st, match r with Ret _ => Ret (validators st) | Raise e => Raise e end).

(** The validator classes in the order the loops meet them, each with the
    id it has when its turn comes. *)
Fixpoint resolve_ids (a : attrs) (members : list (string * pyclass))
    : list (string * pyclass) :=
  match members with
  | [] => []
  | m :: members' =>
      let '(cls_id, a') := resolve_id a m.1 m.2 in
      (cls_id, m.2) :: resolve_ids a' members'
  end.

(** The members of the modules that import, up to the first that raises. *)
Fixpoint loaded_members (mods : list plugin_module) : list (string * pyclass) :=
  match mods with
  | [] => []
  | m :: mods' =>
      match load_module m with
      | Raise _ => []
      | Ret members => getmembers members ++ loaded_members mods'
      end
  end.

Definition discovered (mods : list plugin_module) (a : attrs) : list (string * pyclass) :=
  resolve_ids a (loaded_members mods).

(** The ids that were met before, each time they come again; [earlier] holds
    the ids met so far. *)
Fixpoint repeated_ids (seen : list (string * pyclass)) (earlier : gset string)
    : list string :=
  match seen with
  | [] => []
  | (i, _) :: seen' =>
      if bool_decide (i ∈ earlier) then i :: repeated_ids seen' earlier
      else repeated_ids seen' ({[i]} ∪ earlier)
  end.

(** The sentence of the specification on broken modules, as a property of
    one call: the call returns a registry, and the registry holds an id
    exactly when loading the importable modules alone registers it. *)
Definition importable (m : plugin_module) : bool := returns (load_module m).




(** *** Example modules *)

Definition subclass_of_base (r : class_ref) : pyclass :=
  {| ref := r; mro := [BaseValidation_ref] |}.

Definition CheckInterfaces : pyclass := subclass_of_base 10%nat.
Definition CheckPeers : pyclass := subclass_of_base 11%nat.
Definition CheckVlans : pyclass := subclass_of_base 12%nat.

(** Both [CheckInterfaces] and [CheckPeers] declare [id = "interfaces"];
    [CheckVlans] declares no id. *)
Definition declared_ids : attrs :=
  {[ 10%nat := "interfaces"; 11%nat := "interfaces" ]}.

Definition mod_interfaces : plugin_module :=
  {| module_name := "check_interfaces";
     load_module := Ret [("BaseValidation", Class {| ref := BaseValidation_ref; mro := [] |});
                         ("CheckInterfaces", Class CheckInterfaces);
                         ("HELP", NotAClass)] |}.

Definition mod_peers : plugin_module :=
  {| module_name := "check_peers";
     load_module := Ret [("CheckPeers", Class CheckPeers);
                         ("CheckVlans", Class CheckVlans)] |}.


Definition mod_broken : plugin_module :=
  {| module_name := "broken"; load_module := Raise (ImportError "broken") |}.

End Plugins.


(** ** The validation loops of the command line *)

Module Cli.

(** What a run leaves behind: the flag that decides the exit status, the
    results handed to [print], and every result object in the state the
    loop leaves it in. *)
Record run := {
  error_exists : bool;
  printed : list ValidationResult;
  emitted : list ValidationResult;
}.

Definition start : run :=
  {| error_exists := false; printed := []; emitted := [] |}.

(** The three assignments to a result at the head of the loop body. *)
Definition tag (type name location : string) (r : ValidationResult)
    : ValidationResult :=
  {| result := result r; schema_id := schema_id r; message := message r;
     instance_type := Some type;
     instance_name := Some name;
     instance_location := Some location |}.

(** The rest of the loop body. *)
Definition report (show_pass : bool) (st : run) (r : ValidationResult) : run :=
  if negb (passed r) then
    {| error_exists := true;
       printed := printed st ++ [r]; emitted := emitted st ++ [r] |}
  else if passed r && show_pass then
    {| error_exists := error_exists st;
       printed := printed st ++ [r]; emitted := emitted st ++ [r] |}
  else
    {| error_exists := error_exists st;
       printed := printed st; emitted := emitted st ++ [r] |}.

(** The process exit status after the loops: [sys.exit(1)] when the flag is
    set, a normal return otherwise. *)
Definition exit_status (st : run) : Z := if error_exists st then 1 else 0.

Definition reset_error (st : run) : run :=
  {| error_exists := false; printed := printed st; emitted := emitted st |}.

Record InstanceFile := {
  filename : string;
  path : string;
}.

Record Host := {
  name : string;
}.

Section Commands.

(** The collaborators the commands call: [instance.validate(smgr, strict)],
    [schema_obj.validate(data)] and [inv.get_clean_host_vars(host)]. *)
Variable instance_validate : InstanceFile → bool → list ValidationResult.
Variable Schema : Type.
Variable schema_validate : Schema → value → list ValidationResult.
Variable get_clean_host_vars : Host → list (string * value).

(** *** [validate], from [error_exists = False] on *)

Definition validate_instance (show_pass strict : bool) (st : run)
    (instance : InstanceFile) : run :=
  foldl (λ st result,
           report show_pass st
             (tag "FILE" (filename instance) (path instance) result))
        st (instance_validate instance strict).

Definition validate (instances : list InstanceFile) (show_pass strict : bool)
    : run :=
  foldl (validate_instance show_pass strict) start instances.

(** *** [ansible], from [error_exists = False] on *)

(** One step of [{schema_id: smgr.schemas[schema_id] for schema_id in ...}]. *)
Definition add_schema (schemas : list (string * Schema))
    (d : list (string * Schema)) (schema_id : value)
    : outcome (list (string * Schema)) :=
  match schema_id with
  | VStr k =>
      match dict_get k schemas with
      | Some schema_obj => Ret (dict_set k schema_obj d)
      | None => Raise (KeyError schema_id)
      end
  | VList _ | VDict _ => Raise TypeError
  | VNone | VBool _ | VInt _ => Raise (KeyError schema_id)
  end.

(** [key in mapping.keys()]. *)
Definition keys_contains (mapping : value) (key : string) : outcome bool :=
  match mapping with
  | VDict d => Ret (dict_mem key d)
  | _ => Raise AttributeError
  end.

(** [mapping[key]], reached only after [key in mapping.keys()]. *)
Definition mapping_getitem (mapping : value) (key : string) : outcome value :=
  match mapping with
  | VDict d =>
      match dict_get key d with
      | Some v => Ret v
      | None => Raise (KeyError (VStr key))
      end
  | _ => Raise TypeError
  end.

Definition applicable_schemas (schemas : list (string * Schema))
    (mapping : value) (key : string) : outcome (list (string * Schema)) :=
  named ← (if truthy mapping then keys_contains mapping key else Ret false);
  if named : bool then
    ids ← mapping_getitem mapping key;
    items ← py_iter ids;
    for_each items (add_schema schemas) []
  else Ret schemas.

Definition check_key (show_pass : bool) (schemas : list (string * Schema))
    (mapping : value) (host : Host) (st : run) (item : string * value)
    : outcome run :=
  applicable ← applicable_schemas schemas mapping item.1;
  mret (foldl (λ st (entry : string * Schema),
                 foldl (λ st result,
                          report show_pass st
                            (tag "VAR" item.1 (name host) result))
                       st (schema_validate entry.2 (VDict [item])))
              st applicable).

Definition check_host (show_pass : bool) (schemas : list (string * Schema))
    (st : run) (host : Host) : outcome run :=
  let hostvar := get_clean_host_vars host in
  let mapping :=
    if dict_mem "jsonschema_mapping" hostvar
    then default VNone (dict_get "jsonschema_mapping" hostvar)
    else VNone in
  let hostvar :=
    if dict_mem "jsonschema_mapping" hostvar
    then dict_del "jsonschema_mapping" hostvar
    else hostvar in
  for_each hostvar (check_key show_pass schemas mapping host) (reset_error st).

(** [limit and host.name != limit]. *)
Definition skipped (limit : option string) (host : Host) : bool :=
  match limit with
  | Some l => negb (String.eqb l "") && negb (String.eqb (name host) l)
  | None => false
  end.

Definition ansible (schemas : list (string * Schema)) (hosts : list Host)
    (limit : option string) (show_pass : bool) : outcome run :=
  for_each hosts
    (λ st host,
       if skipped limit host then Ret st
       else check_host show_pass schemas st host)
    start.

(** The results the schemas in [applicable] give for one variable. *)
Definition key_results (applicable : list (string * Schema))
    (item : string * value) : list ValidationResult :=
  concat (map (λ entry : string * Schema,
                 schema_validate entry.2 (VDict [item])) applicable).

(** The results the instances produce, in order, before the loop touches
    them. *)
Definition produced (instances : list InstanceFile) (strict : bool)
    : list ValidationResult :=
  concat (map (λ instance, instance_validate instance strict) instances).

(** The sentence of the specification on immutability, for one run of
    [validate]: every result object is, after the run, as it was produced. *)
Definition results_untouched (instances : list InstanceFile)
    (show_pass strict : bool) : Prop :=
  emitted (validate instances show_pass strict) = produced instances strict.

End Commands.

(** *** Example inventory

    One schema, which wants the value of a variable to be a string, and two
    hosts with one variable each. *)

Definition string_schema (schema_name : string) (data : value)
    : list ValidationResult :=
  match data with
  | VDict [(_, VStr _)] =>
      [ {| result := "PASS"; schema_id := schema_name; message := None;
           instance_type := None; instance_name := None;
           instance_location := None |} ]
  | _ =>
      [ {| result := "FAIL"; schema_id := schema_name;
           message := Some "value is not of type 'string'";
           instance_type := None; instance_name := None;
           instance_location := None |} ]
  end.

Definition leaf1 : Host := {| name := "leaf1" |}.
Definition spine1 : Host := {| name := "spine1" |}.

Definition example_host_vars (host : Host) : list (string * value) :=
  if String.eqb (name host) "leaf1" then [("dns_server", VInt 12)]
  else [("dns_server", VStr "10.0.0.1")].

Definition example_schemas : list (string * string) :=
  [("schemas/dns_server", "schemas/dns_server")].

Definition dns_file : InstanceFile :=
  {| filename := "dns.yml"; path := "hostvars/leaf1" |}.

Definition two_schemas : list (string * string) :=
  [("schemas/dns_server", "schemas/dns_server");
   ("schemas/ntp_server", "schemas/ntp_server")].

(** A host that maps [dns_server] to one schema and leaves [ntp_server]
    unmapped, and one whose mapping names a schema that is not loaded. *)
Definition mapped_host_vars (host : Host) : list (string * value) :=
  [("dns_server", VStr "10.0.0.1");
   ("jsonschema_mapping",
    VDict [("dns_server",
            VList [VStr (if String.eqb (name host) "leaf1"
                         then "schemas/dns_server" else "schemas/missing")])]);
   ("ntp_server", VStr "10.0.0.2")].

End Cli.


(** ** Callers of a validator *)

Module Session.

(** What a caller can do with a validator object it holds. *)
Inductive call :=
  | Validate (data : value) (strict : bool)
  | GetResults
  | ClearResults.

(** The results of an object that started empty: at most one PASS, which
    comes first, then failures that all carry the rule's message. *)
Definition tidy (i e : string) (rs : list ValidationResult) : Prop :=
  ∃ (p : bool) (n : nat),
    rs = (if p then [pass_result i] else []) ++ replicate n (fail_result i e).

Section Calls.

Variable search : string → value → outcome value.

(** One call and the object it leaves.  [validate] raises before it records
    anything, so an exception leaves the object as it was. *)
Definition step (self : JmesPathModelValidation.t) (c : call)
    : JmesPathModelValidation.t :=
  match c with
  | Validate data strict =>
      match JmesPathModelValidation.validate search self data strict with
      | Ret self' => self'
      | Raise _ => self
      end
  | GetResults => (JmesPathModelValidation.get_results self).2
  | ClearResults => JmesPathModelValidation.clear_results self
  end.

Definition run (self : JmesPathModelValidation.t) (calls : list call)
    : JmesPathModelValidation.t :=
  foldl step self calls.

End Calls.

End Session.

(** ** The [validate] command from its first line *)

Module CliMain.

(** How the command ends: the exit status, the messages given to [error],
    whether the schema mapping was printed, and what the validation loop
    left. *)
Record finished := {
  status : Z;
  errors : list string;
  mapping_printed : bool;
  loop : Cli.run;
}.

Section Validate.

Variable Schema : Type.
Variable instance_validate : Cli.InstanceFile → bool → list ValidationResult.

(** [schemas] is [smgr.schemas] and [instances] is [ifm.instances], as the
    two managers built them. *)
Definition validate (schemas : list (string * Schema))
    (instances : list Cli.InstanceFile) (show_pass show_checks strict : bool)
    : finished :=
  match schemas with
  | [] =>
      {| status := 1; errors := ["No schemas were loaded"];
         mapping_printed := false; loop := Cli.start |}
  | _ :: _ =>
      match instances with
      | [] =>
          {| status := 1;
             errors := ["No instance files were found to validate"];
             mapping_printed := false; loop := Cli.start |}
      | _ :: _ =>
          if show_checks then
            {| status := 0; errors := [];
               mapping_printed := true; loop := Cli.start |}
          else
            let st := Cli.validate instance_validate instances show_pass strict in
            {| status := Cli.exit_status st; errors := [];
               mapping_printed := false; loop := st |}
      end
  end.

End Validate.

End CliMain.

(** What [print] is called on: every failure, and a pass when [show_pass]
    is set. *)
Definition shown (show_pass : bool) (r : ValidationResult) : bool :=
  negb (passed r) || show_pass.


(** * Properties *)

(** ** Python data *)

Example int_of_padded_string : py_int (VStr " -1_000 ") = Ret (-1000).
Proof. reflexivity. Qed.

Example int_of_word : py_int (VStr "as65000") = Raise ValueError.
Proof. reflexivity. Qed.

Example true_equals_one : py_eq (VBool true) (VInt 1) = true.
Proof. reflexivity. Qed.

Example string_differs_from_number : py_eq (VStr "5") (VInt 5) = false.
Proof. reflexivity. Qed.

Example dict_eq_ignores_order :
  py_eq (VDict [("a", VInt 1); ("b", VInt 2)])
        (VDict [("b", VInt 2); ("a", VInt 1)]) = true.
Proof. reflexivity. Qed.

Example search_nested_key :
  search_path "bgp.asn" (VDict [("bgp", VDict [("asn", VInt 65000)])])
  = Ret (VInt 65000).
Proof. reflexivity. Qed.

Example search_missing_key :
  search_path "bgp.asn" (VDict [("ospf", VDict [])]) = Ret VNone.
Proof. reflexivity. Qed.

Lemma for_each_app {A S} (body : S → A → outcome S) xs ys s :
  for_each (xs ++ ys) body s = s' ← for_each xs body s; for_each ys body s'.
Proof.
  revert s. induction xs as [|x xs IH]; intros s; simpl; [done|].
  destruct (body s x) as [s'|e]; simpl; [apply IH | done].
Qed.

(** ** Results of a validator *)

Lemma pass_result_passed i : passed (pass_result i) = true.
Proof. reflexivity. Qed.

Lemma fail_result_failed i msg : passed (fail_result i msg) = false.
Proof. reflexivity. Qed.

Lemma get_results_nonempty (self : BaseValidation.t) :
  (BaseValidation.get_results self).1 ≠ [].
Proof.
  unfold BaseValidation.get_results.
  destruct (BaseValidation._results self) eqn:E; simpl; by rewrite E.
Qed.

(** C7: a validator that recorded no violation answers [get_results] with
    exactly one result, a PASS under the validator's own id, and keeps that
    result; whatever was recorded, [get_results] never returns an empty
    list. *)
Theorem get_results_one_pass_when_nothing_recorded :
  (∀ i : string,
     BaseValidation.get_results {| BaseValidation.id := i; BaseValidation._results := [] |}
     = ([pass_result i],
        {| BaseValidation.id := i; BaseValidation._results := [pass_result i] |})) ∧
  (∀ i : string, passed (pass_result i) = true ∧ schema_id (pass_result i) = i) ∧
  (∀ self : BaseValidation.t, (BaseValidation.get_results self).1 ≠ []).
Proof.
  split; [|split].
  - intros i. reflexivity.
  - intros i. split; reflexivity.
  - apply get_results_nonempty.
Qed.

Section JmesPathProperties.

Import JmesPathModelValidation.

Variable search : string → value → outcome value.

Abbreviation results self := (BaseValidation._results (base self)).

Lemma add_validation_error_results self msg :
  results (add_validation_error self msg)
  = results self ++ [fail_result (BaseValidation.id (base self)) msg].
Proof. reflexivity. Qed.

(** C5: when the left-hand expression finds nothing (a falsy value), the
    object is left as it was: no failure is recorded, whatever the right-hand
    side and the operator are, and neither is evaluated (a right-hand
    expression that would raise and an operator that does not exist go
    unnoticed). *)
Theorem validate_vacuous_when_left_is_falsy b l e data strict lhs :
  search l data = Ret lhs →
  truthy lhs = false →
  ∀ r op,
    validate search
      {| base := b; left := l; right := r; operator := op; error := e |}
      data strict
    = Ret {| base := b; left := l; right := r; operator := op; error := e |}.
Proof.
  intros Hl Hf r op. unfold validate. simpl. rewrite Hl. simpl.
  rewrite Hf. reflexivity.
Qed.

(** C9: [strict] plays no part in [validate]: with [strict] set and with
    [strict] unset the call ends the same way (the same object, with the
    same results, or the same exception), for one document, for what one
    call records, and for a run over several documents. *)
Theorem validate_ignores_strict self data docs :
  validate search self data true = validate search self data false ∧
  recorded search self data true = recorded search self data false ∧
  validate_each search self docs true = validate_each search self docs false.
Proof.
  split; [|split].
  - unfold validate. reflexivity.
  - unfold recorded, validate. reflexivity.
  - unfold validate_each. revert self.
    induction docs as [|d docs IH]; intros self; simpl; [reflexivity|].
    change (validate search self d false) with (validate search self d true).
    destruct (validate search self d true) as [self'|e]; simpl;
      [apply IH | reflexivity].
Qed.

(** *** What a comparison records *)

Lemma validate_truthy self data strict lhs rhs :
  search (left self) data = Ret lhs →
  truthy lhs = true →
  resolve_right search self data = Ret rhs →
  validate search self data strict
  = (op ← operators_getitem (operator self);
     valid ← op lhs rhs;
     mret (if valid : bool then self
           else add_validation_error self (error self))).
Proof.
  intros Hl Ht Hr. unfold validate. rewrite Hl. simpl. rewrite Ht, Hr. simpl.
  destruct (operators_getitem (operator self)) as [op|x]; reflexivity.
Qed.


(** *** Accumulation *)

Lemma validate_outcome_of self data strict :
  validate search self data strict
  = (valid ← outcome_of search self data;
     mret (if valid : bool then self
           else add_validation_error self (error self))).
Proof.
  unfold validate, outcome_of.
  destruct (search (left self) data) as [lhs|x]; simpl; [|done].
  destruct (truthy lhs); simpl; [|done].
  destruct (resolve_right search self data) as [rhs|x]; simpl; [|done].
  destruct (operators_getitem (operator self)) as [op|x]; simpl; done.
Qed.

Lemma with_results_same self : with_results self (results self) = self.
Proof. by destruct self as [[] ? ? ? ?]. Qed.

Lemma validate_appends self data strict self' :
  validate search self data strict = Ret self' →
  self' = with_results self (results self ++ recorded search self data strict).
Proof.
  unfold recorded. rewrite !validate_outcome_of.
  change (outcome_of search (clear_results self) data) with (outcome_of search self data).
  destruct (outcome_of search self data) as [[]|x]; simpl; intros [= <-].
  - by rewrite app_nil_r, with_results_same.
  - reflexivity.
Qed.

Lemma recorded_with_results self rs data strict :
  recorded search (with_results self rs) data strict
  = recorded search self data strict.
Proof. reflexivity. Qed.

Lemma validate_each_appends docs : ∀ self strict self',
  validate_each search self docs strict = Ret self' →
  self' = with_results self
            (results self
             ++ concat (map (λ data, recorded search self data strict) docs)).
Proof.
  unfold validate_each.
  induction docs as [|data docs IH]; intros self strict self'; simpl.
  - intros [= <-]. by rewrite app_nil_r, with_results_same.
  - destruct (validate search self data strict) as [s1|x] eqn:E; simpl; [|done].
    intros H. apply IH in H. apply validate_appends in E. subst s1.
    rewrite H. simpl. rewrite <- app_assoc. reflexivity.
Qed.

(** C10: results only ever grow until [clear_results] is called.  After
    [validate] has run on several documents in succession, the object holds
    what it held before followed by what each call recorded, in order;
    [get_results] returns that list, extended by a PASS when it is empty, and
    removes nothing from it; [clear_results] empties it. *)
Theorem results_accumulate_until_cleared self docs strict self' :
  validate_each search self docs strict = Ret self' →
  results self'
  = results self ++ concat (map (λ data, recorded search self data strict) docs) ∧
  (∃ extra,
     (get_results self').1 = results self' ++ extra ∧
     results (get_results self').2 = results self' ++ extra ∧
     (results self' ≠ [] → extra = [])) ∧
  results (clear_results self') = [].
Proof.
  intros H. apply validate_each_appends in H. split; [|split].
  - by rewrite H.
  - unfold get_results, BaseValidation.get_results.
    destruct (results self') as [|r rs] eqn:E; simpl.
    + exists [pass_result (BaseValidation.id (base self'))]. by rewrite E.
    + exists []. rewrite E. by rewrite app_nil_r.
  - reflexivity.
Qed.

End JmesPathProperties.

(** ** Plugin discovery *)

Section PluginProperties.

Import Plugins.

Example is_validator_rejects_non_classes : is_validator NotAClass = false.
Proof. reflexivity. Qed.

Example members_of_mod_interfaces :
  getmembers [("BaseValidation", Class {| ref := BaseValidation_ref; mro := [] |});
              ("CheckInterfaces", Class CheckInterfaces);
              ("HELP", NotAClass)]
  = [("CheckInterfaces", CheckInterfaces)].
Proof. reflexivity. Qed.

Lemma register_class_ids st m :
  class_ids (register st m) = (resolve_id (class_ids st) m.1 m.2).2.
Proof.
  unfold register. destruct (resolve_id _ _ _) as [i a'].
  by destruct (validators st !! i).
Qed.

(** The inner loop, run over any list of validator classes from any state:
    an id registered before keeps its instance, a new id gets an instance of
    the first class that carries it, and each further class with a known id
    costs one line of output. *)
Lemma register_all members : ∀ st,
  let st' := foldl register st members in
  let seen := resolve_ids (class_ids st) members in
  (∀ i, validators st' !! i
        = match validators st !! i with
          | Some inst => Some inst
          | None => instantiate i <$> dict_get i seen
          end) ∧
  stdout st'
  = stdout st ++ (duplicate_line <$> repeated_ids seen (dom (validators st))).
Proof.
  induction members as [|m members IH]; intros st; simpl.
  - split; [intros i; by destruct (validators st !! i) | by rewrite app_nil_r].
  - specialize (IH (register st m)). simpl in IH. destruct IH as [IHv IHo].
    rewrite register_class_ids in IHv, IHo.
    rewrite IHo. clear IHo.
    unfold register in *.
    destruct (resolve_id (class_ids st) m.1 m.2) as [cid a'] eqn:Er.
    simpl in *.
    destruct (validators st !! cid) as [old|] eqn:Ev; simpl in *.
    + split.
      * intros i. rewrite IHv.
        destruct (validators st !! i) as [x|] eqn:Ei; [done|].
        destruct (String.eqb_spec i cid) as [->|Hne]; [congruence | done].
      * rewrite bool_decide_eq_true_2 by (apply elem_of_dom; eauto).
        rewrite <- app_assoc. reflexivity.
    + split.
      * intros i. rewrite IHv.
        destruct (String.eqb_spec i cid) as [->|Hne].
        -- rewrite lookup_insert_eq, Ev. reflexivity.
        -- rewrite lookup_insert_ne by congruence. reflexivity.
      * rewrite bool_decide_eq_false_2 by (by apply not_elem_of_dom).
        rewrite dom_insert_L. reflexivity.
Qed.

Lemma load_modules_state mods : ∀ st,
  (load_modules mods st).1 = foldl register st (loaded_members mods).
Proof.
  induction mods as [|m mods IH]; intros st; simpl; [done|].
  destruct (load_module m) as [members|e]; simpl; [|done].
  rewrite foldl_app. apply IH.
Qed.

Lemma load_validators_state mods a :
  (load_validators mods a).1
  = foldl register {| class_ids := a; validators := ∅; stdout := [] |}
      (loaded_members mods).
Proof.
  unfold load_validators. rewrite <- load_modules_state.
  by destruct (load_modules mods _).
Qed.

Lemma load_validators_returns_registry mods a st reg :
  load_validators mods a = (st, Ret reg) → reg = validators st.
Proof.
  unfold load_validators. destruct (load_modules mods _) as [st0 [[]|e]]; [|done].
  by intros [= <- <-].
Qed.

(** How often an id comes again is one less than how often it comes. *)
Lemma repeated_ids_count i seen : ∀ earlier,
  length (filter (λ j, j = i) (repeated_ids seen earlier))
  = if bool_decide (i ∈ earlier)
    then length (filter (λ p, p.1 = i) seen)
    else pred (length (filter (λ p, p.1 = i) seen)).
Proof.
  induction seen as [|[j c] seen IH]; intros earlier; simpl.
  - by destruct (bool_decide _).
  - destruct (decide (j = i)) as [->|Hne].
    + rewrite (filter_cons_True (λ p : string * pyclass, p.1 = i)) by done.
      simpl. destruct (bool_decide (i ∈ earlier)) eqn:Ei.
      * rewrite filter_cons_True by done. simpl. rewrite IH, Ei. reflexivity.
      * rewrite IH.
        rewrite bool_decide_eq_true_2
          by (by apply elem_of_union_l, elem_of_singleton).
        reflexivity.
    + rewrite (filter_cons_False (λ p : string * pyclass, p.1 = i)) by done.
      destruct (bool_decide (j ∈ earlier)) eqn:Ej.
      * rewrite filter_cons_False by done. apply IH.
      * rewrite IH. destruct (bool_decide (i ∈ earlier)) eqn:Ei.
        -- apply bool_decide_eq_true in Ei.
           rewrite bool_decide_eq_true_2 by (by apply elem_of_union_r).
           reflexivity.
        -- apply bool_decide_eq_false in Ei.
           rewrite bool_decide_eq_false_2; [reflexivity|].
           rewrite elem_of_union, elem_of_singleton. intros [?|?]; congruence.
Qed.

Lemma load_validators_final_state mods a st reg :
  load_validators mods a = (st, Ret reg) →
  reg = validators st ∧
  (∀ i, validators st !! i = instantiate i <$> dict_get i (discovered mods a)) ∧
  stdout st = duplicate_line <$> repeated_ids (discovered mods a) ∅.
Proof.
  intros H.
  assert (Hst : st = (load_validators mods a).1) by (by rewrite H).
  apply load_validators_returns_registry in H.
  rewrite load_validators_state in Hst.
  destruct (register_all (loaded_members mods)
              {| class_ids := a; validators := ∅; stdout := [] |})
    as [Hv Ho].
  simpl in Hv, Ho. rewrite <- Hst in Hv, Ho.
  split; [exact H|]. split.
  - intros i. rewrite Hv, lookup_empty. reflexivity.
  - rewrite Ho, dom_empty_L. reflexivity.
Qed.

(** C1: when [load_validators] returns, the registry maps every id to a
    fresh instance of the first class that carried it (so two classes with
    one id leave one entry, of the first); each later class with that id
    produced one "Duplicate validator name" line and nothing else: the lines
    for an id number one less than the classes that carry it, and no
    instance of a rejected class exists whose [validate] could run (every
    registered instance still has no results). *)
Theorem load_validators_first_registration_wins mods a st reg :
  load_validators mods a = (st, Ret reg) →
  let seen := discovered mods a in
  (∀ i, reg !! i = instantiate i <$> dict_get i seen) ∧
  stdout st = duplicate_line <$> repeated_ids seen ∅ ∧
  (∀ i, length (filter (λ j, j = i) (repeated_ids seen ∅))
        = pred (length (filter (λ p, p.1 = i) seen))) ∧
  (∀ i inst, reg !! i = Some inst →
     BaseValidation.id (self inst) = i ∧
     BaseValidation._results (self inst) = []).
Proof.
  intros H seen.
  apply load_validators_final_state in H as (-> & Hreg & Hout).
  split; [exact Hreg|]. split; [exact Hout|]. split.
  - intros i. rewrite repeated_ids_count.
    rewrite bool_decide_eq_false_2; [done | apply not_elem_of_empty].
  - intros i inst Hi. rewrite Hreg in Hi. fold seen in Hi.
    destruct (dict_get i seen) as [c|]; simpl in Hi; [|done].
    by injection Hi as <-.
Qed.

Example duplicate_id_keeps_first_class :
  ∃ st reg,
    load_validators [mod_interfaces; mod_peers] declared_ids = (st, Ret reg) ∧
    reg !! "interfaces" = Some (instantiate "interfaces" CheckInterfaces) ∧
    reg !! "CheckVlans" = Some (instantiate "CheckVlans" CheckVlans) ∧
    size reg = 2%nat ∧
    stdout st = ["Duplicate validator name: interfaces"].
Proof. eexists _, _. split; [reflexivity|]. by vm_compute. Qed.

(** A class without an id inherits the one its parent was given a moment
    before, and is turned away as a duplicate of its parent. *)
Example subclass_inherits_defaulted_id :
  let parent := {| ref := 20%nat; mro := [BaseValidation_ref] |} in
  let child := {| ref := 21%nat; mro := [20%nat; BaseValidation_ref] |} in
  let m := {| module_name := "checks";
              load_module := Ret [("Child", Class child); ("Parent", Class parent)] |} in
  let m' := {| module_name := "checks";
               load_module := Ret [("Parent", Class parent); ("Zchild", Class child)] |} in
  dom (validators (load_validators [m] ∅).1) = {["Child"; "Parent"]} ∧
  dom (validators (load_validators [m'] ∅).1) = {["Parent"]} ∧
  stdout (load_validators [m'] ∅).1 = ["Duplicate validator name: Parent"].
Proof. by vm_compute. Qed.

(** *** Modules that fail to import *)





Example sound_module_alone_registers :
  is_Some (validators (load_validators [mod_interfaces] declared_ids).1 !! "interfaces") ∧
  validators (load_validators [mod_broken; mod_interfaces] declared_ids).1 = ∅ ∧
  (load_validators [mod_broken; mod_interfaces] declared_ids).2
  = Raise (ImportError "broken").
Proof. split; [vm_compute; eauto | split; by vm_compute]. Qed.


End PluginProperties.

(** ** The command line loops *)

Section CliProperties.

Import Cli.

Lemma tag_passed type name location r :
  passed (tag type name location r) = passed r.
Proof. reflexivity. Qed.

Lemma forallb_passed_tag type name location rs :
  forallb passed (tag type name location <$> rs) = forallb passed rs.
Proof.
  induction rs as [|r rs IH]; [done|].
  rewrite fmap_cons. cbn [forallb]. by rewrite IH, tag_passed.
Qed.

Lemma report_all show_pass (f : ValidationResult → ValidationResult) rs :
  (∀ r, passed (f r) = passed r) →
  ∀ st,
  let st' := foldl (λ st r, report show_pass st (f r)) st rs in
  error_exists st' = error_exists st || negb (forallb passed rs) ∧
  emitted st' = emitted st ++ (f <$> rs).
Proof.
  intros Hf. induction rs as [|r rs IH]; intros st; simpl.
  - by rewrite orb_false_r, app_nil_r.
  - destruct (IH (report show_pass st (f r))) as [IHe IHm].
    rewrite IHe, IHm. unfold report. rewrite Hf.
    destruct (passed r); simpl.
    + destruct show_pass; simpl; by rewrite <- app_assoc.
    + rewrite orb_true_r. by rewrite <- app_assoc.
Qed.

Section Validate.

Variable instance_validate : InstanceFile → bool → list ValidationResult.

Lemma validate_instances show_pass strict instances : ∀ st,
  let st' := foldl (validate_instance instance_validate show_pass strict) st instances in
  error_exists st'
  = error_exists st
    || negb (forallb passed (produced instance_validate instances strict)) ∧
  emitted st'
  = emitted st
    ++ concat (map (λ i, tag "FILE" (filename i) (path i)
                           <$> instance_validate i strict) instances).
Proof.
  induction instances as [|i instances IH]; intros st; simpl.
  - by rewrite orb_false_r, app_nil_r.
  - destruct (IH (validate_instance instance_validate show_pass strict st i))
      as [IHe IHm].
    rewrite IHe, IHm. unfold validate_instance.
    destruct (report_all show_pass (tag "FILE" (filename i) (path i))
                (instance_validate i strict) (tag_passed _ _ _) st) as [He Hm].
    rewrite He, Hm. unfold produced. simpl.
    rewrite forallb_app, negb_andb, orb_assoc, <- app_assoc. done.
Qed.

(** The [validate] command does what C3 says: it exits with status 1 exactly
    when some produced result is not a PASS. *)
Lemma validate_status_is_conjunction instances show_pass strict :
  exit_status (validate instance_validate instances show_pass strict)
  = if forallb passed (produced instance_validate instances strict) then 0 else 1.
Proof.
  unfold exit_status, validate.
  destruct (validate_instances show_pass strict instances start) as [He _].
  rewrite He. simpl. by destruct (forallb _ _).
Qed.

End Validate.

(** *** Python dicts and the dict comprehension *)

Lemma dict_set_keys {A} k (v : A) d n :
  n ∈ (dict_set k v d).*1 ↔ n = k ∨ n ∈ d.*1.
Proof.
  induction d as [|[k' v'] d IH]; simpl.
  - rewrite list_elem_of_singleton, elem_of_nil. tauto.
  - destruct (String.eqb_spec k k') as [->|Hne]; simpl.
    + rewrite !elem_of_cons. tauto.
    + rewrite !elem_of_cons, IH. tauto.
Qed.

Lemma dict_set_NoDup {A} k (v : A) d :
  NoDup d.*1 → NoDup (dict_set k v d).*1.
Proof.
  induction d as [|[k' v'] d IH]; simpl.
  - intros _. apply NoDup_singleton.
  - intros [Hk Hd]%NoDup_cons.
    destruct (String.eqb_spec k k') as [->|Hne]; simpl.
    + by apply NoDup_cons.
    + apply NoDup_cons. split; [|by apply IH].
      rewrite dict_set_keys. intros [->|?]; done.
Qed.

Lemma dict_set_entries {A} k (v : A) d n x :
  (n, x) ∈ dict_set k v d → (n = k ∧ x = v) ∨ (n, x) ∈ d.
Proof.
  induction d as [|[k' v'] d IH]; simpl.
  - intros [= -> ->]%list_elem_of_singleton. by left.
  - destruct (String.eqb_spec k k') as [->|Hne].
    + intros [[= -> ->]|Hin]%elem_of_cons; [by left|].
      right. by apply elem_of_cons; right.
    + intros [[= -> ->]|Hin]%elem_of_cons.
      * right. by apply elem_of_cons; left.
      * apply IH in Hin as [?|?]; [by left|].
        right. by apply elem_of_cons; right.
Qed.

(** The dict comprehension over ids that are all loaded. *)
Lemma add_schemas_named {Schema} (schemas : list (string * Schema)) names : ∀ d,
  Forall (λ n, is_Some (dict_get n schemas)) names →
  NoDup d.*1 →
  (∀ n x, (n, x) ∈ d → dict_get n schemas = Some x) →
  ∃ d',
    for_each (VStr <$> names) (add_schema Schema schemas) d = Ret d' ∧
    NoDup d'.*1 ∧
    (∀ n, n ∈ d'.*1 ↔ n ∈ d.*1 ∨ n ∈ names) ∧
    (∀ n x, (n, x) ∈ d' → dict_get n schemas = Some x).
Proof.
  induction names as [|k names IH]; intros d Hall Hnd Hd; simpl.
  - exists d. split; [done|]. split; [done|]. split; [|done].
    intros n. rewrite elem_of_nil. tauto.
  - inversion Hall as [|? ? [x Hk] Hall']; subst.
    rewrite Hk. simpl.
    destruct (IH (dict_set k x d) Hall') as (d' & Hrun & Hnd' & Hkeys & Hent).
    + by apply dict_set_NoDup.
    + intros n y [[-> ->]|Hin]%dict_set_entries; [done | by apply Hd].
    + exists d'. split; [done|]. split; [done|]. split; [|done].
      intros n. rewrite Hkeys, dict_set_keys, elem_of_cons. tauto.
Qed.

(** *** [ansible] *)

Section Ansible.

Variable Schema : Type.
Variable schema_validate : Schema → value → list ValidationResult.
Variable get_clean_host_vars : Host → list (string * value).

Abbreviation check_key := (Cli.check_key Schema schema_validate).
Abbreviation check_host := (Cli.check_host Schema schema_validate get_clean_host_vars).
Abbreviation ansible := (Cli.ansible Schema schema_validate get_clean_host_vars).
Abbreviation key_results := (Cli.key_results Schema schema_validate).

Lemma report_schemas show_pass type name location item applicable : ∀ st,
  let st' :=
    foldl (λ st (entry : string * Schema),
             foldl (λ st r, report show_pass st (tag type name location r))
                   st (schema_validate entry.2 (VDict [item])))
          st applicable in
  error_exists st'
  = error_exists st || negb (forallb passed (key_results applicable item)) ∧
  emitted st'
  = emitted st ++ (tag type name location <$> key_results applicable item).
Proof.
  unfold key_results.
  induction applicable as [|entry applicable IH]; intros st; simpl.
  - by rewrite orb_false_r, app_nil_r.
  - destruct (IH (foldl (λ st r, report show_pass st (tag type name location r))
                    st (schema_validate entry.2 (VDict [item])))) as [IHe IHm].
    rewrite IHe, IHm.
    destruct (report_all show_pass (tag type name location)
                (schema_validate entry.2 (VDict [item])) (tag_passed _ _ _) st)
      as [He Hm].
    rewrite He, Hm.
    rewrite forallb_app, negb_andb, orb_assoc, fmap_app, <- app_assoc. done.
Qed.

Lemma check_key_emits show_pass schemas mapping host st item applicable :
  applicable_schemas Schema schemas mapping item.1 = Ret applicable →
  ∃ st',
    check_key show_pass schemas mapping host st item = Ret st' ∧
    error_exists st'
    = error_exists st || negb (forallb passed (key_results applicable item)) ∧
    emitted st'
    = emitted st ++ (tag "VAR" item.1 (name host) <$> key_results applicable item).
Proof.
  intros Ha. unfold Cli.check_key. rewrite Ha. simpl.
  eexists. split; [reflexivity|]. apply report_schemas.
Qed.

(** Whatever the flag was before a host, after the host it tells only
    whether one of that host's own results failed. *)
Lemma check_host_flag_is_local show_pass schemas st host st' :
  check_host show_pass schemas st host = Ret st' →
  ∃ new,
    emitted st' = emitted st ++ new ∧
    error_exists st' = negb (forallb passed new).
Proof.
  unfold Cli.check_host.
  set (mapping := if dict_mem _ _ then _ else VNone).
  set (hostvar := if dict_mem _ _ then dict_del _ _ else _).
  assert (Hloop : ∀ items s s',
            for_each items (check_key show_pass schemas mapping host) s = Ret s' →
            ∃ new, emitted s' = emitted s ++ new ∧
                   error_exists s' = error_exists s || negb (forallb passed new)).
  { induction items as [|item items IH]; intros s s'; simpl.
    - intros [= <-]. exists []. by rewrite app_nil_r, orb_false_r.
    - destruct (applicable_schemas Schema schemas mapping item.1)
        as [applicable|e] eqn:Ea.
      + destruct (check_key_emits show_pass schemas mapping host s item
                    applicable Ea) as (s1 & -> & He & Hm).
        simpl. intros H. apply IH in H as (new & Hm' & He').
        exists ((tag "VAR" item.1 (name host) <$> key_results applicable item)
                ++ new).
        rewrite Hm', Hm, He', He, <- app_assoc. split; [done|].
        by rewrite forallb_app, forallb_passed_tag, negb_andb, orb_assoc.
      + unfold Cli.check_key. rewrite Ea. done. }
  intros H. apply Hloop in H as (new & Hm & He). exists new. by split.
Qed.

(** The flag [ansible] ends with belongs to the last host it processed:
    what the hosts before it produced has no part in it. *)
Lemma ansible_flag_of_last_host schemas hosts host limit show_pass st :
  skipped limit host = false →
  ansible schemas (hosts ++ [host]) limit show_pass = Ret st →
  ∃ st0 new,
    ansible schemas hosts limit show_pass = Ret st0 ∧
    emitted st = emitted st0 ++ new ∧
    error_exists st = negb (forallb passed new).
Proof.
  intros Hs. unfold Cli.ansible. rewrite for_each_app.
  destruct (for_each hosts _ start) as [st0|e]; simpl; [|done].
  rewrite Hs.
  destruct (check_host show_pass schemas st0 host) as [st1|e] eqn:E; simpl; [|done].
  intros [= <-]. apply check_host_flag_is_local in E as (new & Hm & He).
  eauto.
Qed.

End Ansible.

(** *** The schemas a mapping selects *)

Section Mapping.

Variable Schema : Type.
Variable schema_validate : Schema → value → list ValidationResult.

Abbreviation check_key := (Cli.check_key Schema schema_validate).
Abbreviation key_results := (Cli.key_results Schema schema_validate).


End Mapping.

End CliProperties.

(** *** The two commands on concrete runs *)

Example validate_fails_on_one_failure :
  Cli.exit_status
    (Cli.validate (λ i strict, [pass_result "a"; fail_result "b" "wrong"; pass_result "c"])
       [Cli.dns_file] false false) = 1.
Proof. reflexivity. Qed.

(** C3 on [ansible]: the flag is set to [False] again at the head of every
    host, so a host whose variables pass hides the failure of the host
    before it.  [leaf1] fails and [spine1] passes: in that order the run ends
    with status 0 although a FAIL was produced and printed, in the other
    order it ends with status 1. *)
Theorem ansible_exit_status_forgets_earlier_hosts :
  (∃ st,
     Cli.ansible string Cli.string_schema Cli.example_host_vars
       Cli.example_schemas [Cli.leaf1; Cli.spine1] None false = Ret st ∧
     Cli.exit_status st = 0 ∧
     ∃ r, r ∈ Cli.emitted st ∧ passed r = false ∧
          r ∈ Cli.printed st ∧ instance_location r = Some "leaf1") ∧
  (∃ st,
     Cli.ansible string Cli.string_schema Cli.example_host_vars
       Cli.example_schemas [Cli.spine1; Cli.leaf1] None false = Ret st ∧
     Cli.exit_status st = 1).
Proof.
  split.
  - eexists. split; [reflexivity|]. split; [reflexivity|].
    eexists. split; [apply elem_of_cons; left; reflexivity|].
    split; [reflexivity|].
    split; [apply elem_of_cons; left; reflexivity | reflexivity].
  - eexists. split; reflexivity.
Qed.

Example ansible_follows_mapping :
  ∃ st,
    Cli.ansible string Cli.string_schema Cli.mapped_host_vars Cli.two_schemas
      [Cli.leaf1] None true = Ret st ∧
    (λ r, (instance_name r, schema_id r)) <$> Cli.emitted st
    = [(Some "dns_server", "schemas/dns_server");
       (Some "ntp_server", "schemas/dns_server");
       (Some "ntp_server", "schemas/ntp_server")].
Proof. eexists. split; reflexivity. Qed.

(** An id that no loaded schema has ends the run with a [KeyError]. *)
Example ansible_unknown_schema_id :
  Cli.ansible string Cli.string_schema Cli.mapped_host_vars Cli.two_schemas
    [Cli.spine1] None true = Raise (KeyError (VStr "schemas/missing")).
Proof. reflexivity. Qed.

(** C4, the sentence as written, fails: the result a file's validation
    produced has no instance name, and the loop gives it one. *)
Lemma validate_rewrites_produced_results :
  ¬ Cli.results_untouched (λ _ _, [pass_result "schemas/dns_server"])
      [Cli.dns_file] false false.
Proof. unfold Cli.results_untouched. vm_compute. discriminate. Qed.

(** C4 as amended: both commands assign the instance type, name and
    location of every result after it is produced ([FILE], file name and
    path in [validate]; [VAR], variable name and host name in [ansible]), and
    leave its outcome, schema id and message as they were. *)
Theorem cli_assigns_context_and_keeps_verdict :
  (∀ instance_validate instances show_pass strict,
     Cli.emitted (Cli.validate instance_validate instances show_pass strict)
     = concat (map (λ i, Cli.tag "FILE" (Cli.filename i) (Cli.path i)
                           <$> instance_validate i strict) instances)) ∧
  (∀ Schema schema_validate show_pass schemas mapping host st item applicable,
     Cli.applicable_schemas Schema schemas mapping item.1 = Ret applicable →
     ∃ st',
       Cli.check_key Schema schema_validate show_pass schemas mapping host st item
       = Ret st' ∧
       Cli.emitted st'
       = Cli.emitted st
         ++ (Cli.tag "VAR" item.1 (Cli.name host)
               <$> Cli.key_results Schema schema_validate applicable item)) ∧
  (∀ type name location r,
     result (Cli.tag type name location r) = result r ∧
     schema_id (Cli.tag type name location r) = schema_id r ∧
     message (Cli.tag type name location r) = message r ∧
     instance_type (Cli.tag type name location r) = Some type ∧
     instance_name (Cli.tag type name location r) = Some name ∧
     instance_location (Cli.tag type name location r) = Some location).
Proof.
  split; [|split].
  - intros iv instances show_pass strict. unfold Cli.validate.
    destruct (validate_instances iv show_pass strict instances Cli.start)
      as [_ Hm].
    exact Hm.
  - intros Schema sv show_pass schemas mapping host st item applicable Ha.
    destruct (check_key_emits Schema sv show_pass schemas mapping host st item
                applicable Ha) as (st' & Hck & _ & Hm).
    eauto.
  - intros. repeat split.
Qed.

(** ** The theorems at concrete inputs *)

Lemma validate_vacuous_when_left_is_falsy_witness :
  let data := VDict [("ospf", VDict [("area", VInt 0)])] in
  let rule :=
    {| JmesPathModelValidation.base := BaseValidation.__init__ "CheckAsn";
       JmesPathModelValidation.left := "bgp.asn";
       JmesPathModelValidation.right := JmesPathModelValidation.ParsedResult "";
       JmesPathModelValidation.operator := "between";
       JmesPathModelValidation.error := "ASN is not private" |} in
  search_path "bgp.asn" data = Ret VNone ∧
  truthy VNone = false ∧
  search_path "" data = Raise JMESPathError ∧
  JmesPathModelValidation.operators_getitem "between"
  = Raise (KeyError (VStr "between")) ∧
  JmesPathModelValidation.validate search_path rule data true = Ret rule.
Proof.
  intros data rule.
  split; [reflexivity|]. split; [reflexivity|]. split; [reflexivity|].
  split; [reflexivity|].
  apply (validate_vacuous_when_left_is_falsy search_path
           (BaseValidation.__init__ "CheckAsn") "bgp.asn" "ASN is not private"
           data true VNone); reflexivity.
Defined.


Lemma results_accumulate_until_cleared_witness :
  let asn n := VDict [("bgp", VDict [("asn", VInt n)])] in
  let docs := [asn 100; asn 65000; asn 7] in
  ∃ self',
    JmesPathModelValidation.validate_each search_path
      JmesPathModelValidation.asn_rule docs false = Ret self' ∧
    BaseValidation._results (JmesPathModelValidation.base self')
    = [fail_result "CheckAsn" "ASN is not private";
       fail_result "CheckAsn" "ASN is not private"].
Proof.
  intros asn docs. eexists. split; [reflexivity|].
  match goal with
  | |- BaseValidation._results (JmesPathModelValidation.base ?s) = _ =>
      destruct (results_accumulate_until_cleared search_path
                  JmesPathModelValidation.asn_rule docs false s eq_refl)
        as [H _]
  end.
  rewrite H. reflexivity.
Defined.

Lemma load_validators_first_registration_wins_witness :
  let run := Plugins.load_validators
               [Plugins.mod_interfaces; Plugins.mod_peers] Plugins.declared_ids in
  run = (run.1, Ret (Plugins.validators run.1)) ∧
  Plugins.validators run.1 !! "interfaces"
  = Some (Plugins.instantiate "interfaces" Plugins.CheckInterfaces) ∧
  Plugins.stdout run.1 = ["Duplicate validator name: interfaces"].
Proof.
  intros run.
  assert (Hrun : run = (run.1, Ret (Plugins.validators run.1))) by reflexivity.
  split; [exact Hrun|].
  destruct (load_validators_first_registration_wins _ _ _ _ Hrun)
    as (Hreg & Hout & _).
  split; [rewrite Hreg | rewrite Hout]; reflexivity.
Defined.



Lemma cli_assigns_context_and_keeps_verdict_witness :
  Cli.applicable_schemas string Cli.example_schemas VNone "dns_server"
  = Ret Cli.example_schemas ∧
  ∃ st',
    Cli.check_key string Cli.string_schema false Cli.example_schemas VNone
      Cli.leaf1 Cli.start ("dns_server", VInt 12) = Ret st' ∧
    Cli.emitted st'
    = [Cli.tag "VAR" "dns_server" "leaf1"
         (fail_result "schemas/dns_server" "value is not of type 'string'")].
Proof.
  split; [reflexivity|].
  destruct cli_assigns_context_and_keeps_verdict as (_ & Hkey & _).
  destruct (Hkey string Cli.string_schema false Cli.example_schemas VNone
              Cli.leaf1 Cli.start ("dns_server", VInt 12) Cli.example_schemas
              eq_refl) as (st' & Hck & Hm).
  exists st'. split; [exact Hck|]. rewrite Hm. reflexivity.
Defined.

Lemma get_results_one_pass_when_nothing_recorded_witness :
  BaseValidation.get_results (BaseValidation.__init__ "CheckAsn")
  = ([pass_result "CheckAsn"],
     BaseValidation.add_validation_pass (BaseValidation.__init__ "CheckAsn")) ∧
  (BaseValidation.get_results
     (BaseValidation.add_validation_error
        (BaseValidation.__init__ "CheckAsn") "ASN is not private")).1 ≠ [].
Proof.
  destruct get_results_one_pass_when_nothing_recorded as (Hone & _ & Hne).
  split; [apply (Hone "CheckAsn") | apply Hne].
Defined.

(** * Further properties of the code *)

(** ** [BaseValidation] *)

(** X1: asking for the results twice gives the same list and the same
    object as asking once: the PASS that stands for "nothing recorded" is
    added at most once. *)
Theorem get_results_idempotent (self : BaseValidation.t) :
  BaseValidation.get_results (BaseValidation.get_results self).2
  = BaseValidation.get_results self.
Proof.
  unfold BaseValidation.get_results.
  destruct self as [i [|r rs]]; reflexivity.
Qed.

Lemma add_validation_errors_results (self : BaseValidation.t) msgs :
  foldl BaseValidation.add_validation_error self msgs
  = {| BaseValidation.id := BaseValidation.id self;
       BaseValidation._results :=
         BaseValidation._results self
         ++ (fail_result (BaseValidation.id self) <$> msgs) |}.
Proof.
  revert self. induction msgs as [|m msgs IH]; intros self; simpl.
  - rewrite app_nil_r. by destruct self.
  - rewrite IH. simpl. by rewrite <- app_assoc.
Qed.

(** X2: a new validator that records one error or more reports exactly
    those errors, each as a FAIL under its own id, in the order they were
    recorded, and no PASS among them. *)
Theorem recorded_errors_are_reported_in_order (i : string) (msgs : list string) :
  msgs ≠ [] →
  let self := foldl BaseValidation.add_validation_error
                (BaseValidation.__init__ i) msgs in
  BaseValidation.get_results self = (fail_result i <$> msgs, self) ∧
  Forall (λ r, passed r = false ∧ schema_id r = i)
         (BaseValidation.get_results self).1.
Proof.
  intros Hne self.
  assert (Hs : self = {| BaseValidation.id := i;
                         BaseValidation._results := fail_result i <$> msgs |}).
  { unfold self. by rewrite add_validation_errors_results. }
  assert (Hg : BaseValidation.get_results self = (fail_result i <$> msgs, self)).
  { rewrite Hs. unfold BaseValidation.get_results.
    destruct msgs as [|m msgs]; [done | reflexivity]. }
  split; [exact Hg|]. rewrite Hg. simpl.
  apply Forall_fmap, Forall_forall. by intros m _.
Qed.

Lemma recorded_errors_are_reported_in_order_witness :
  [ "vlan 10 is missing"; "vlan 20 is missing" ] ≠ [] ∧
  (BaseValidation.get_results
     (BaseValidation.add_validation_error
        (BaseValidation.add_validation_error
           (BaseValidation.__init__ "CheckVlans") "vlan 10 is missing")
        "vlan 20 is missing")).1
  = [fail_result "CheckVlans" "vlan 10 is missing";
     fail_result "CheckVlans" "vlan 20 is missing"].
Proof.
  split; [done|].
  destruct (recorded_errors_are_reported_in_order "CheckVlans"
              [ "vlan 10 is missing"; "vlan 20 is missing" ]) as [Hg _];
    [done|].
  simpl in Hg. by rewrite Hg.
Defined.

(** ** [JmesPathModelValidation] *)

Section JmesPathFurther.

Import JmesPathModelValidation.

Variable search : string → value → outcome value.

Abbreviation results self := (BaseValidation._results (base self)).

Lemma recorded_cases self data strict :
  recorded search self data strict = [] ∨
  recorded search self data strict
  = [fail_result (BaseValidation.id (base self)) (error self)].
Proof.
  unfold recorded. rewrite validate_outcome_of.
  destruct (outcome_of search (clear_results self) data) as [[]|e]; simpl; auto.
Qed.

Lemma step_keeps_attributes self c :
  Session.step search self c = with_results self (results (Session.step search self c)).
Proof.
  destruct c as [data strict| |]; simpl.
  - destruct (validate search self data strict) as [s|x] eqn:E.
    + apply validate_appends in E. by rewrite E.
    + by rewrite with_results_same.
  - unfold get_results, BaseValidation.get_results.
    destruct self as [[i [|r rs]] l r' o e]; reflexivity.
  - by destruct self as [[] ? ? ? ?].
Qed.

Lemma step_tidy self c :
  Session.tidy (BaseValidation.id (base self)) (error self) (results self) →
  Session.tidy (BaseValidation.id (base self)) (error self)
       (results (Session.step search self c)).
Proof.
  intros (p & n & Hrs). destruct c as [data strict| |]; simpl.
  - destruct (validate search self data strict) as [s|x] eqn:E;
      [|by exists p, n].
    apply validate_appends in E. subst s. simpl.
    destruct (recorded_cases self data strict) as [->| ->].
    + exists p, n. by rewrite app_nil_r.
    + exists p, (S n). rewrite Hrs, <- app_assoc. f_equal.
      change [fail_result (BaseValidation.id (base self)) (error self)]
        with (replicate 1 (fail_result (BaseValidation.id (base self)) (error self))).
      rewrite <- replicate_add. f_equal. lia.
  - unfold get_results, BaseValidation.get_results.
    destruct (results self) as [|r rs] eqn:Er; simpl.
    + rewrite Er. simpl. by exists true, 0%nat.
    + rewrite Er. by exists p, n.
  - by exists false, 0%nat.
Qed.

Lemma run_tidy calls : ∀ self,
  Session.tidy (BaseValidation.id (base self)) (error self) (results self) →
  Session.run search self calls
  = with_results self (results (Session.run search self calls)) ∧
  Session.tidy (BaseValidation.id (base self)) (error self)
       (results (Session.run search self calls)).
Proof.
  unfold Session.run.
  induction calls as [|c calls IH]; intros self Ht; simpl.
  - by rewrite with_results_same.
  - pose proof (step_keeps_attributes self c) as Hc.
    pose proof (step_tidy self c Ht) as Ht1.
    set (s1 := Session.step search self c) in *.
    assert (Hid : BaseValidation.id (base s1) = BaseValidation.id (base self))
      by (by rewrite Hc).
    assert (Herr : error s1 = error self) by (by rewrite Hc).
    destruct (IH s1) as [Hrun Htidy]; [by rewrite Hid, Herr|].
    rewrite Hid, Herr in Htidy. split; [|exact Htidy].
    rewrite Hrun at 1. rewrite Hc. reflexivity.
Qed.

(** X3: whatever a caller does with an expression rule it created (any
    sequence of [validate], [get_results] and [clear_results], on any
    documents), the rule keeps its attributes, and its results are at most
    one PASS, standing first, followed by failures that all carry the rule's
    own id and its configured message. *)
Theorem session_results_stay_tidy i l r o e calls :
  let self0 := {| base := BaseValidation.__init__ i;
                  left := l; right := r; operator := o; error := e |} in
  let self := Session.run search self0 calls in
  self = with_results self0 (results self) ∧
  Session.tidy i e (results self) ∧
  Forall (λ res, schema_id res = i ∧
                 (passed res = false → message res = Some e))
         (results self).
Proof.
  intros self0 self.
  destruct (run_tidy calls self0) as [Hattr Ht]; [by exists false, 0%nat|].
  fold self in Hattr, Ht. simpl in Ht.
  split; [exact Hattr|]. split; [exact Ht|].
  destruct Ht as (p & n & ->).
  apply Forall_app. split.
  - destruct p; [|by apply Forall_nil].
    apply Forall_cons. split; [|by apply Forall_nil]. by split.
  - apply Forall_replicate. by split.
Qed.

End JmesPathFurther.

(** *** Operators *)

Lemma dict_get_None {A} (k : string) (d : list (string * A)) :
  k ∉ d.*1 → dict_get k d = None.
Proof.
  induction d as [|[k' v] d IH]; simpl; [done|].
  rewrite elem_of_cons. intros Hk.
  destruct (String.eqb_spec k k') as [->|_]; [tauto|].
  apply IH. tauto.
Qed.

Section JmesPathOperators.

Import JmesPathModelValidation.

Variable search : string → value → outcome value.

(** X4: the operator is looked up only once the left-hand value is known
    to be truthy and the right-hand side is resolved; a name that is not one
    of the six makes [validate] raise [KeyError] with that name, and nothing
    is recorded. *)
Theorem validate_unknown_operator self data strict lhs rhs :
  search (left self) data = Ret lhs →
  truthy lhs = true →
  resolve_right search self data = Ret rhs →
  operator self ∉ ["gt"; "gte"; "eq"; "lt"; "lte"; "contains"] →
  validate search self data strict = Raise (KeyError (VStr (operator self))).
Proof.
  intros Hl Ht Hr Hop.
  rewrite (validate_truthy search self data strict lhs rhs Hl Ht Hr).
  unfold operators_getitem. by rewrite dict_get_None.
Qed.



End JmesPathOperators.

Lemma validate_unknown_operator_witness :
  let data := VDict [("bgp", VDict [("asn", VInt 65000)])] in
  let rule :=
    {| JmesPathModelValidation.base := BaseValidation.__init__ "CheckAsn";
       JmesPathModelValidation.left := "bgp.asn";
       JmesPathModelValidation.right := JmesPathModelValidation.Literal (VInt 64512);
       JmesPathModelValidation.operator := "ge";
       JmesPathModelValidation.error := "ASN is not private" |} in
  search_path "bgp.asn" data = Ret (VInt 65000) ∧
  truthy (VInt 65000) = true ∧
  ("ge" ∉ ["gt"; "gte"; "eq"; "lt"; "lte"; "contains"]) ∧
  JmesPathModelValidation.validate search_path rule data false
  = Raise (KeyError (VStr "ge")).
Proof.
  intros data rule.
  assert (Hop : "ge" ∉ ["gt"; "gte"; "eq"; "lt"; "lte"; "contains"]).
  { intros H. repeat (apply elem_of_cons in H as [H|H]; [discriminate H|]).
    by apply elem_of_nil in H. }
  split; [reflexivity|]. split; [reflexivity|]. split; [exact Hop|].
  apply (validate_unknown_operator search_path rule data false
           (VInt 65000) (VInt 64512)); [reflexivity .. | exact Hop].
Defined.



(** ** Plugin discovery, further *)

Section PluginFurther.

Import Plugins.

Lemma resolve_ids_length a members :
  length (resolve_ids a members) = length members.
Proof.
  revert a. induction members as [|m members IH]; intros a; simpl; [done|].
  destruct (resolve_id a m.1 m.2) as [i a']. simpl. by rewrite IH.
Qed.

Lemma resolve_ids_classes a members :
  (resolve_ids a members).*2 = members.*2.
Proof.
  revert a. induction members as [|m members IH]; intros a; simpl; [done|].
  destruct (resolve_id a m.1 m.2) as [i a']. simpl. by rewrite IH.
Qed.

Lemma register_counts st m :
  (size (validators (register st m)) + length (stdout (register st m)))%nat
  = S (size (validators st) + length (stdout st)).
Proof.
  unfold register. destruct (resolve_id _ _ _) as [i a'].
  destruct (validators st !! i) as [old|] eqn:E; simpl.
  - rewrite length_app. simpl. lia.
  - rewrite map_size_insert_None by done. lia.
Qed.

Lemma dict_get_is_Some {A} (i : string) (d : list (string * A)) :
  is_Some (dict_get i d) ↔ i ∈ d.*1.
Proof.
  induction d as [|[k x] d IH]; simpl.
  - rewrite elem_of_nil. split; [by intros [? ?] | done].
  - rewrite elem_of_cons.
    destruct (String.eqb_spec i k) as [->|Hne].
    + split; [by left | eauto].
    + rewrite IH. tauto.
Qed.

Lemma dict_get_Some_elem_of {A} (i : string) (x : A) d :
  dict_get i d = Some x → (i, x) ∈ d.
Proof.
  induction d as [|[k y] d IH]; simpl; [done|].
  destruct (String.eqb_spec i k) as [->|Hne].
  - intros [= ->]. apply elem_of_cons. by left.
  - intros H. apply elem_of_cons. right. by apply IH.
Qed.

Lemma register_all_counts members : ∀ st,
  (size (validators (foldl register st members))
   + length (stdout (foldl register st members)))%nat
  = (size (validators st) + length (stdout st) + length members)%nat.
Proof.
  induction members as [|m members IH]; intros st; simpl; [lia|].
  rewrite IH, register_counts. lia.
Qed.

(** X7: nothing [load_validators] meets is lost: every validator class of
    the modules imported so far is either in the registry or was reported on
    a "Duplicate validator name" line, and the registry has an entry for an
    id exactly when some class met carries that id.  This holds for the
    state the call leaves whether it returns or raises. *)
Theorem load_validators_accounts_for_every_class mods a :
  let st := (load_validators mods a).1 in
  (size (validators st) + length (stdout st))%nat
  = length (discovered mods a) ∧
  (∀ i, is_Some (validators st !! i) ↔ i ∈ (discovered mods a).*1).
Proof.
  intros st. unfold st. rewrite load_validators_state. split.
  - rewrite register_all_counts. simpl. rewrite map_size_empty.
    unfold discovered. rewrite resolve_ids_length. lia.
  - intros i.
    destruct (register_all (loaded_members mods)
                {| class_ids := a; validators := ∅; stdout := [] |})
      as [Hv _].
    simpl in Hv. rewrite Hv, lookup_empty. fold (discovered mods a).
    rewrite <- dict_get_is_Some.
    destruct (dict_get i (discovered mods a)); simpl;
      split; intros [x Hx]; try done; eauto.
Qed.

(** *** The [id] attributes of the classes *)

Lemma lookup_id_subseteq (a a' : attrs) refs :
  a ⊆ a' → is_Some (lookup_id a refs) → is_Some (lookup_id a' refs).
Proof.
  intros Hsub. induction refs as [|r refs IH]; simpl; [done|].
  destruct (a !! r) as [i|] eqn:E.
  - intros _. by rewrite (lookup_weaken _ _ _ _ E Hsub).
  - intros H. destruct (a' !! r); [eauto | by apply IH].
Qed.

Lemma resolve_id_grows a name cls :
  a ⊆ (resolve_id a name cls).2 ∧
  is_Some (getattr_id (resolve_id a name cls).2 cls).
Proof.
  unfold resolve_id. destruct (getattr_id a cls) as [i|] eqn:E; simpl.
  - split; [done | by rewrite E].
  - assert (Hr : a !! ref cls = None).
    { unfold getattr_id in E. simpl in E. by destruct (a !! ref cls). }
    split; [by apply insert_subseteq|].
    unfold getattr_id. simpl. rewrite lookup_insert_eq. eauto.
Qed.

Lemma register_all_class_ids members : ∀ st,
  class_ids st ⊆ class_ids (foldl register st members) ∧
  Forall (λ m, is_Some (getattr_id (class_ids (foldl register st members)) m.2))
         members.
Proof.
  induction members as [|m members IH]; intros st; simpl; [done|].
  destruct (IH (register st m)) as [Hsub Hall].
  destruct (resolve_id_grows (class_ids st) m.1 m.2) as [Hg Hs].
  rewrite <- register_class_ids in Hg, Hs.
  split; [by etrans|].
  apply Forall_cons. split; [|exact Hall].
  by apply (lookup_id_subseteq _ _ _ Hsub).
Qed.

(** X8: the assignment [cls.id = name] only ever fills a gap: an [id] a
    class declares is still the one it has after the call, and after the
    call every validator class met has an [id], its own or an inherited
    one. *)
Theorem load_validators_completes_class_ids mods a :
  let st := (load_validators mods a).1 in
  (∀ r i, a !! r = Some i → class_ids st !! r = Some i) ∧
  Forall (λ m, is_Some (getattr_id (class_ids st) m.2)) (loaded_members mods).
Proof.
  intros st. unfold st. rewrite load_validators_state.
  destruct (register_all_class_ids (loaded_members mods)
              {| class_ids := a; validators := ∅; stdout := [] |})
    as [Hsub Hall].
  split; [|exact Hall].
  intros r i Hr. by apply (lookup_weaken _ _ _ _ Hr Hsub).
Qed.

(** *** What gets registered *)

Lemma getmembers_are_validators members :
  Forall (λ m, is_validator (Class m.2) = true) (getmembers members).
Proof.
  unfold getmembers. apply Forall_forall. intros [n c] Hin.
  apply list_elem_of_omap in Hin as ([n' o] & _ & Ho). simpl in Ho.
  destruct o as [|cls]; [done|].
  destruct (is_validator (Class cls)) eqn:E; [|done].
  by injection Ho as <- <-.
Qed.

Lemma loaded_members_are_validators mods :
  Forall (λ m, is_validator (Class m.2) = true) (loaded_members mods).
Proof.
  induction mods as [|m mods IH]; simpl; [done|].
  destruct (load_module m) as [members|e]; [|done].
  apply Forall_app. split; [apply getmembers_are_validators | exact IH].
Qed.

(** X9: only proper subclasses of [BaseValidation] are ever instantiated:
    the class of every registered instance passes [is_validator], that is,
    it has [BaseValidation] among its ancestors and is neither
    [BaseValidation] nor [JmesPathModelValidation] itself, whatever else the
    modules contain. *)
Theorem load_validators_registers_proper_subclasses mods a i inst :
  validators (load_validators mods a).1 !! i = Some inst →
  is_validator (Class (class_of inst)) = true ∧
  BaseValidation_ref ∈ mro (class_of inst) ∧
  ref (class_of inst) ≠ BaseValidation_ref ∧
  ref (class_of inst) ≠ JmesPathModelValidation_ref.
Proof.
  rewrite load_validators_state.
  destruct (register_all (loaded_members mods)
              {| class_ids := a; validators := ∅; stdout := [] |})
    as [Hv _].
  simpl in Hv. rewrite Hv, lookup_empty.
  destruct (dict_get i _) as [c|] eqn:E; simpl; [|done].
  intros [= <-]. simpl.
  apply dict_get_Some_elem_of in E.
  assert (Hc : c ∈ (loaded_members mods).*2).
  { rewrite <- (resolve_ids_classes a).
    apply list_elem_of_fmap. by exists (i, c). }
  apply list_elem_of_fmap in Hc as ([n c'] & -> & Hin). simpl.
  pose proof (loaded_members_are_validators mods) as Hall.
  rewrite Forall_forall in Hall. specialize (Hall _ Hin). simpl in Hall.
  split; [exact Hall|].
  unfold is_validator in Hall. simpl in Hall.
  apply andb_true_iff in Hall as [Hsub Hnot].
  apply bool_decide_eq_true in Hsub.
  apply negb_true_iff, bool_decide_eq_false in Hnot.
  rewrite !elem_of_cons, elem_of_nil in Hnot.
  apply elem_of_cons in Hsub as [Heq|Hsub];
    [exfalso; apply Hnot; right; left; by symmetry|].
  split; [exact Hsub|]. split; intros Heq; apply Hnot; auto.
Qed.

(** *** The order of the modules *)

Lemma loaded_members_app mods1 mods2 :
  Forall (λ m, importable m = true) mods1 →
  loaded_members (mods1 ++ mods2) = loaded_members mods1 ++ loaded_members mods2.
Proof.
  induction mods1 as [|m mods1 IH]; intros Hok; simpl; [done|].
  inversion Hok as [|? ? Hm Hok']; subst. unfold importable in Hm.
  destruct (load_module m) as [members|e]; [|done].
  by rewrite IH, app_assoc.
Qed.





Lemma dict_get_NoDup {A} (i : string) (x : A) d :
  NoDup d.*1 → (i, x) ∈ d → dict_get i d = Some x.
Proof.
  induction d as [|[k y] d IH]; simpl; [by intros _ ?%elem_of_nil|].
  intros [Hk Hnd]%NoDup_cons [[= <- <-]|Hin]%elem_of_cons.
  - by rewrite String.eqb_refl.
  - destruct (String.eqb_spec i k) as [->|Hne]; [|by apply IH].
    exfalso. apply Hk. apply list_elem_of_fmap. by exists (k, x).
Qed.




End PluginFurther.

(** ** The command line loops, further *)

Section CliFurther.

Import Cli.

Lemma for_each_ext {A S} (f g : S → A → outcome S) xs :
  (∀ s x, x ∈ xs → f s x = g s x) →
  ∀ s, for_each xs f s = for_each xs g s.
Proof.
  induction xs as [|x xs IH]; intros Hfg s; simpl; [done|].
  rewrite Hfg by (apply elem_of_cons; by left).
  destruct (g s x) as [s'|e]; simpl; [|done].
  apply IH. intros s0 y Hy. apply Hfg. apply elem_of_cons. by right.
Qed.

Lemma forallb_false_elem_of {A} (f : A → bool) l :
  forallb f l = false → ∃ x, x ∈ l ∧ f x = false.
Proof.
  induction l as [|x l IH]; simpl; [done|].
  destruct (f x) eqn:E; simpl.
  - intros (y & Hy & Hf)%IH. exists y. split; [|done].
    apply elem_of_cons. by right.
  - intros _. exists x. split; [|done]. apply elem_of_cons. by left.
Qed.

(** *** What is printed *)

Lemma report_prints_shown show_pass st r :
  printed st = List.filter (shown show_pass) (emitted st) →
  printed (report show_pass st r)
  = List.filter (shown show_pass) (emitted (report show_pass st r)).
Proof.
  intros H. unfold report, shown.
  destruct (passed r) eqn:Hp; simpl.
  - destruct show_pass; simpl; rewrite List.filter_app; simpl;
      rewrite Hp; simpl; rewrite H; by rewrite ?app_nil_r.
  - rewrite List.filter_app. simpl. rewrite Hp. simpl. by rewrite H.
Qed.

Lemma report_all_prints_shown show_pass (f : ValidationResult → ValidationResult) rs :
  ∀ st,
  printed st = List.filter (shown show_pass) (emitted st) →
  let st' := foldl (λ st r, report show_pass st (f r)) st rs in
  printed st' = List.filter (shown show_pass) (emitted st').
Proof.
  induction rs as [|r rs IH]; intros st H; simpl; [done|].
  apply IH. by apply report_prints_shown.
Qed.

Section Validate.

Variable instance_validate : InstanceFile → bool → list ValidationResult.

(** X11: the [validate] command ends with status 0 or 1, and with 1
    exactly when one of the results its instances produce is not a PASS,
    however many results pass. *)
Theorem validate_exit_status_is_conjunction instances show_pass strict :
  let st := validate instance_validate instances show_pass strict in
  (exit_status st = 0 ∨ exit_status st = 1) ∧
  (exit_status st = 1
   ↔ ∃ r, r ∈ produced instance_validate instances strict ∧ passed r = false).
Proof.
  intros st. unfold st.
  rewrite (validate_status_is_conjunction instance_validate).
  destruct (forallb passed (produced instance_validate instances strict)) eqn:E.
  - split; [by left|]. split; [done|].
    intros (r & Hin & Hr).
    rewrite forallb_forall in E. apply list_elem_of_In in Hin.
    rewrite (E r Hin) in Hr. discriminate Hr.
  - split; [by right|]. split; [|done]. intros _.
    by apply forallb_false_elem_of.
Qed.

(** X12: [--show-pass] changes what is printed and nothing else: the
    exit status and the results are the same with and without it, every
    failure is printed either way, in order, and a PASS is printed only with
    the option. *)
Theorem validate_show_pass_only_prints instances show_pass show_pass' strict :
  let st := validate instance_validate instances show_pass strict in
  let st' := validate instance_validate instances show_pass' strict in
  error_exists st = error_exists st' ∧
  emitted st = emitted st' ∧
  printed st = List.filter (shown show_pass) (emitted st).
Proof.
  intros st st'. unfold st, st', validate.
  destruct (validate_instances instance_validate show_pass strict instances start)
    as [He Hm].
  destruct (validate_instances instance_validate show_pass' strict instances start)
    as [He' Hm'].
  rewrite He, He', Hm, Hm'. split; [done|]. split; [done|].
  rewrite <- Hm. clear.
  assert (Hgen : ∀ s,
            printed s = List.filter (shown show_pass) (emitted s) →
            printed (foldl (validate_instance instance_validate show_pass strict)
                       s instances)
            = List.filter (shown show_pass)
                (emitted (foldl (validate_instance instance_validate show_pass strict)
                            s instances))).
  { induction instances as [|i instances IH]; intros s Hs; simpl; [done|].
    apply IH. unfold validate_instance. by apply report_all_prints_shown. }
  by apply Hgen.
Qed.

End Validate.

(** *** [ansible] *)

Lemma dict_del_keys {A} k (d : list (string * A)) x :
  x ∈ (dict_del k d).*1 → x ∈ d.*1.
Proof.
  induction d as [|[k' v] d IH]; simpl; [done|].
  destruct (String.eqb_spec k k') as [->|Hne]; simpl.
  - intros H. apply elem_of_cons. by right.
  - rewrite !elem_of_cons. intros [->|H]; [by left | right; by apply IH].
Qed.

Lemma dict_del_NoDup {A} k (d : list (string * A)) :
  NoDup d.*1 → k ∉ (dict_del k d).*1.
Proof.
  induction d as [|[k' v] d IH]; simpl; [by intros _ ?%elem_of_nil|].
  intros [Hk Hnd]%NoDup_cons.
  destruct (String.eqb_spec k k') as [->|Hne]; simpl; [done|].
  rewrite elem_of_cons. intros [->|H]; [done | by apply IH].
Qed.



Section Ansible.

Variable Schema : Type.
Variable schema_validate : Schema → value → list ValidationResult.
Variable get_clean_host_vars : Host → list (string * value).

Abbreviation check_key := (Cli.check_key Schema schema_validate).
Abbreviation check_host := (Cli.check_host Schema schema_validate get_clean_host_vars).
Abbreviation ansible := (Cli.ansible Schema schema_validate get_clean_host_vars).
Lemma check_key_prints_shown show_pass schemas mapping host st item st' :
  check_key show_pass schemas mapping host st item = Ret st' →
  printed st = List.filter (shown show_pass) (emitted st) →
  printed st' = List.filter (shown show_pass) (emitted st').
Proof.
  unfold Cli.check_key.
  destruct (applicable_schemas Schema schemas mapping item.1) as [app|e];
    simpl; [|done].
  intros [= <-] H. revert st H.
  induction app as [|entry app IH]; intros st H; simpl; [done|].
  apply IH. by apply report_all_prints_shown.
Qed.

Lemma for_each_invariant {A S} (P : S → Prop) (body : S → A → outcome S) xs :
  (∀ s x s', x ∈ xs → body s x = Ret s' → P s → P s') →
  ∀ s s', for_each xs body s = Ret s' → P s → P s'.
Proof.
  induction xs as [|x xs IH]; intros Hbody s s'; simpl.
  - by intros [= <-].
  - destruct (body s x) as [s1|e] eqn:E; simpl; [|done].
    intros H Hs. apply (IH) with (s := s1); [|done|].
    + intros s0 y s0' Hy. apply Hbody. apply elem_of_cons. by right.
    + apply (Hbody s x); [apply elem_of_cons; by left | done | done].
Qed.

(** X13: whatever [ansible] prints is what it should: when the run
    returns, the results printed are the failures among the results of all
    hosts, in order, together with the passes when [--show-pass] is given. *)
Theorem ansible_prints_what_is_shown schemas hosts limit show_pass st :
  ansible schemas hosts limit show_pass = Ret st →
  printed st = List.filter (shown show_pass) (emitted st).
Proof.
  intros H.
  apply (for_each_invariant
           (λ s, printed s = List.filter (shown show_pass) (emitted s))
           _ _ ) with (s := start) (s' := st) in H; [done | | done].
  intros s host s' _. destruct (skipped limit host); [by intros [= <-]|].
  unfold Cli.check_host. intros Hh Hs.
  apply (for_each_invariant
           (λ s, printed s = List.filter (shown show_pass) (emitted s))
           _ _ ) with (s' := s') in Hh; [done | | done].
  intros s0 item s1 _. apply check_key_prints_shown.
Qed.

(** X14: [--host] is a filter on the inventory: a run limited to a name
    is the run over the hosts of that name with no limit, so hosts of
    another name are not even asked for their variables; an empty name is no
    limit; and when the limit names no host the run returns at once with
    nothing checked and status 0. *)
Theorem ansible_limit_is_a_filter schemas hosts limit show_pass :
  ansible schemas hosts limit show_pass
  = ansible schemas (List.filter (λ h, negb (skipped limit h)) hosts) None show_pass ∧
  ansible schemas hosts (Some EmptyString) show_pass
  = ansible schemas hosts None show_pass ∧
  (Forall (λ h, skipped limit h = true) hosts →
   ansible schemas hosts limit show_pass = Ret start ∧ exit_status start = 0).
Proof.
  unfold Cli.ansible. split; [|split].
  - generalize start.
    induction hosts as [|h hosts IH]; intros st; simpl; [done|].
    destruct (skipped limit h); simpl; [apply IH|].
    destruct (check_host show_pass schemas st h) as [st'|e]; simpl; [apply IH | done].
  - apply for_each_ext. intros s h _. reflexivity.
  - intros Hall. split; [|done]. generalize start.
    induction hosts as [|h hosts IH]; intros st; simpl; [done|].
    inversion Hall as [|? ? Hh Hall']; subst. rewrite Hh. simpl. by apply IH.
Qed.

(** *** Where the results of [ansible] come from *)

Lemma check_host_emitted show_pass schemas st host st' :
  check_host show_pass schemas st host = Ret st' →
  ∃ new,
    emitted st' = emitted st ++ new ∧
    Forall (λ r, instance_type r = Some "VAR" ∧
                 instance_location r = Some (name host) ∧
                 ∃ key, instance_name r = Some key ∧
                        key ∈ (get_clean_host_vars host).*1 ∧
                        (NoDup (get_clean_host_vars host).*1 →
                         key ≠ "jsonschema_mapping")) new.
Proof.
  unfold Cli.check_host.
  set (mapping := if dict_mem _ _ then _ else VNone).
  set (hostvar := if dict_mem "jsonschema_mapping" _ then dict_del _ _ else _).
  assert (Hkeys : ∀ key, key ∈ hostvar.*1 →
            key ∈ (get_clean_host_vars host).*1 ∧
            (NoDup (get_clean_host_vars host).*1 → key ≠ "jsonschema_mapping")).
  { intros key. unfold hostvar, dict_mem.
    destruct (dict_get "jsonschema_mapping" (get_clean_host_vars host)) eqn:E.
    - intros Hin. split; [by apply dict_del_keys in Hin|].
      intros Hnd ->. exact (dict_del_NoDup _ _ Hnd Hin).
    - intros Hin. split; [done|]. intros _ ->.
      apply dict_get_is_Some in Hin. rewrite E in Hin. by destruct Hin. }
  clearbody hostvar mapping.
  intros H.
  apply (for_each_invariant
           (λ s, ∃ new, emitted s = emitted st ++ new ∧
                        Forall (λ r, instance_type r = Some "VAR" ∧
                                     instance_location r = Some (name host) ∧
                                     ∃ key, instance_name r = Some key ∧
                                            key ∈ hostvar.*1) new))
    in H.
  - destruct H as (new & Hm & Hall). exists new. split; [done|].
    eapply Forall_impl; [exact Hall|].
    intros r (Ht & Hl & key & Hn & Hk). split; [done|]. split; [done|].
    exists key. split; [done|]. by apply Hkeys.
  - intros s item s' Hitem Hck (new & Hm & Hall).
    destruct (applicable_schemas Schema schemas mapping item.1)
      as [app|e] eqn:Ea.
    + destruct (check_key_emits Schema schema_validate show_pass schemas mapping
                  host s item app Ea) as (s1 & Hs1 & _ & Hm1).
      rewrite Hs1 in Hck. injection Hck as <-.
      eexists. split; [rewrite Hm1, Hm, <- app_assoc; reflexivity|].
      apply Forall_app. split; [done|].
      apply Forall_fmap, Forall_forall. intros r _. simpl.
      split; [done|]. split; [done|]. exists item.1. split; [done|].
      apply list_elem_of_fmap. by exists item.
    + unfold Cli.check_key in Hck. by rewrite Ea in Hck.
  - exists []. by rewrite app_nil_r.
Qed.

(** X15: every result [ansible] hands on is a result about one variable
    of one host of the inventory that the limit lets through: it is tagged
    [VAR], located at that host's name and named after one of the host's
    variables, and (the variables of a host being a dict) never after
    [jsonschema_mapping] itself, which is taken out before the variables are
    checked. *)
Theorem ansible_results_come_from_host_variables schemas hosts limit show_pass st :
  ansible schemas hosts limit show_pass = Ret st →
  Forall (λ r, instance_type r = Some "VAR" ∧
               ∃ host key,
                 host ∈ hosts ∧ skipped limit host = false ∧
                 instance_location r = Some (name host) ∧
                 instance_name r = Some key ∧
                 key ∈ (get_clean_host_vars host).*1 ∧
                 (NoDup (get_clean_host_vars host).*1 →
                  key ≠ "jsonschema_mapping"))
         (emitted st).
Proof.
  intros H. unfold Cli.ansible in H.
  match goal with
  | |- Forall ?Q _ =>
      apply (for_each_invariant (λ s, Forall Q (emitted s))) in H;
        [exact H | | by apply Forall_nil]
  end.
  intros s host s' Hhost Hbody Hs. simpl in *.
  destruct (skipped limit host) eqn:Hskip; [by injection Hbody as <-|].
  apply check_host_emitted in Hbody as (new & -> & Hnew).
  apply Forall_app. split; [done|].
  eapply Forall_impl; [exact Hnew|].
  intros r (Ht & Hl & key & Hn & Hk & Hm). split; [done|].
  by exists host, key.
Qed.

Lemma skipped_hosts_change_nothing schemas hosts limit show_pass st :
  Forall (λ h, skipped limit h = true) hosts →
  for_each hosts
    (λ st host, if skipped limit host then Ret st
                else check_host show_pass schemas st host) st = Ret st.
Proof.
  induction 1 as [|h hosts Hh Hall IH]; simpl; [done|]. by rewrite Hh.
Qed.

(** X16: the status [ansible] ends with is decided by the last host that
    the limit lets through, and by that host alone: the run ends with status
    1 exactly when one of the results of that host is not a PASS, whatever
    the hosts before it produced. *)
Theorem ansible_exit_status_of_last_host schemas before host after limit show_pass st :
  skipped limit host = false →
  Forall (λ h, skipped limit h = true) after →
  ansible schemas (before ++ host :: after) limit show_pass = Ret st →
  ∃ st0 new,
    ansible schemas before limit show_pass = Ret st0 ∧
    emitted st = emitted st0 ++ new ∧
    (exit_status st = 1 ↔ ∃ r, r ∈ new ∧ passed r = false).
Proof.
  intros Hhost Hafter. unfold Cli.ansible. rewrite for_each_app.
  destruct (for_each before _ start) as [st0|e]; simpl; [|done].
  rewrite Hhost.
  destruct (check_host show_pass schemas st0 host) as [st1|e] eqn:E; simpl; [|done].
  rewrite skipped_hosts_change_nothing by done. intros [= <-].
  apply (check_host_flag_is_local Schema schema_validate get_clean_host_vars)
    in E as (new & Hm & He).
  exists st0, new. split; [done|]. split; [done|].
  unfold exit_status. rewrite He.
  destruct (forallb passed new) eqn:Ef; simpl.
  - split; [done|]. intros (r & Hin & Hr).
    rewrite forallb_forall in Ef. apply list_elem_of_In in Hin.
    rewrite (Ef r Hin) in Hr. discriminate Hr.
  - split; [|done]. intros _. by apply forallb_false_elem_of.
Qed.

End Ansible.

(** *** The mapping of a host *)

Section Mapping.

Variable Schema : Type.
Variable schema_validate : Schema → value → list ValidationResult.


(** X18: a mapping entry that names a schema id no loaded schema has
    stops the run: the ids are looked up in the order the entry lists them,
    and the first one that is missing raises [KeyError] with that id, before
    the variable is checked against any schema. *)
Theorem unknown_schema_id_raises_KeyError schemas d key v known missing others
    host st show_pass :
  dict_get key d = Some (VList (VStr <$> (known ++ missing :: others))) →
  Forall (λ n, is_Some (dict_get n schemas)) known →
  dict_get missing schemas = None →
  applicable_schemas Schema schemas (VDict d) key
  = Raise (KeyError (VStr missing)) ∧
  Cli.check_key Schema schema_validate show_pass schemas (VDict d) host st (key, v)
  = Raise (KeyError (VStr missing)).
Proof.
  intros Hkey Hknown Hmissing.
  assert (Ha : applicable_schemas Schema schemas (VDict d) key
               = Raise (KeyError (VStr missing))).
  { unfold applicable_schemas, keys_contains, mapping_getitem, dict_mem.
    destruct d as [|entry d']; [done|]. simpl truthy. cbv iota.
    rewrite Hkey. simpl. rewrite fmap_app, for_each_app.
    destruct (add_schemas_named schemas known [] Hknown) as (d0 & -> & _).
    { apply NoDup_nil_2. }
    { by intros n x ?%elem_of_nil. }
    simpl. by rewrite Hmissing. }
  split; [exact Ha|]. unfold Cli.check_key. simpl. by rewrite Ha.
Qed.

End Mapping.

(** *** The [validate] command as a whole *)

(** X19: the [validate] command ends with status 1 in three cases and no
    other: no schema is loaded, no instance file is found, or (the schema
    mapping not being asked for) one of the results produced is not a PASS.
    With no schema, with no instance, or with [--show-checks], no instance
    is validated at all. *)
Theorem validate_command_status Schema instance_validate
    (schemas : list (string * Schema)) instances show_pass show_checks strict :
  let fin := CliMain.validate Schema instance_validate schemas instances
               show_pass show_checks strict in
  (CliMain.status fin = 0 ∨ CliMain.status fin = 1) ∧
  (CliMain.status fin = 1
   ↔ schemas = [] ∨ instances = [] ∨
     (show_checks = false ∧
      ∃ r, r ∈ produced instance_validate instances strict ∧ passed r = false)) ∧
  (schemas = [] ∨ instances = [] ∨ show_checks = true →
   CliMain.loop fin = start ∧ emitted (CliMain.loop fin) = []) ∧
  (CliMain.mapping_printed fin = true → CliMain.status fin = 0).
Proof.
  intros fin. unfold fin, CliMain.validate.
  destruct schemas as [|sc schemas].
  { simpl. split; [by right|]. split; [split; auto|]. by split. }
  destruct instances as [|i instances].
  { simpl. split; [by right|]. split; [split; auto|]. by split. }
  destruct show_checks.
  { simpl. split; [by left|]. split; [|by split].
    split; [done|]. intros [H|[H|[H _]]]; done. }
  simpl CliMain.status. simpl CliMain.loop. simpl CliMain.mapping_printed.
  rewrite (validate_status_is_conjunction instance_validate).
  destruct (forallb passed (produced instance_validate (i :: instances) strict))
    eqn:E.
  - split; [by left|]. split; [|split; [|done]].
    + split; [done|]. intros [H|[H|[_ (r & Hin & Hr)]]]; [done | done |].
      rewrite forallb_forall in E. apply list_elem_of_In in Hin.
      rewrite (E r Hin) in Hr. discriminate Hr.
    + intros [H|[H|H]]; done.
  - split; [by right|]. split; [|split; [|done]].
    + split; [|done]. intros _. right. right. split; [done|].
      by apply forallb_false_elem_of.
    + intros [H|[H|H]]; done.
Qed.

End CliFurther.

(** ** The further properties at concrete inputs *)

Lemma session_results_stay_tidy_witness :
  let bad := VDict [("bgp", VDict [("asn", VInt 100)])] in
  let good := VDict [("bgp", VDict [("asn", VInt 65000)])] in
  let self :=
    Session.run search_path JmesPathModelValidation.asn_rule
      [Session.Validate bad false; Session.ClearResults;
       Session.Validate good false; Session.GetResults;
       Session.Validate bad true] in
  BaseValidation._results (JmesPathModelValidation.base self)
  = [pass_result "CheckAsn"; fail_result "CheckAsn" "ASN is not private"] ∧
  Forall (λ res, schema_id res = "CheckAsn" ∧
                 (passed res = false → message res = Some "ASN is not private"))
         (BaseValidation._results (JmesPathModelValidation.base self)).
Proof.
  intros bad good self. split; [reflexivity|].
  destruct (session_results_stay_tidy search_path "CheckAsn" "bgp.asn"
              (JmesPathModelValidation.Literal (VInt 64512)) "gte"
              "ASN is not private"
              [Session.Validate bad false; Session.ClearResults;
               Session.Validate good false; Session.GetResults;
               Session.Validate bad true]) as (_ & _ & H).
  exact H.
Defined.

Lemma load_validators_accounts_for_every_class_witness :
  let st := (Plugins.load_validators
               [Plugins.mod_interfaces; Plugins.mod_broken; Plugins.mod_peers]
               Plugins.declared_ids).1 in
  let st' := (Plugins.load_validators
                [Plugins.mod_interfaces; Plugins.mod_peers]
                Plugins.declared_ids).1 in
  (size (Plugins.validators st) + length (Plugins.stdout st) = 1)%nat ∧
  (size (Plugins.validators st') + length (Plugins.stdout st') = 3)%nat.
Proof.
  intros st st'. split.
  - destruct (load_validators_accounts_for_every_class
                [Plugins.mod_interfaces; Plugins.mod_broken; Plugins.mod_peers]
                Plugins.declared_ids) as [H _].
    exact H.
  - destruct (load_validators_accounts_for_every_class
                [Plugins.mod_interfaces; Plugins.mod_peers]
                Plugins.declared_ids) as [H _].
    exact H.
Defined.

Lemma load_validators_completes_class_ids_witness :
  let st := (Plugins.load_validators
               [Plugins.mod_interfaces; Plugins.mod_peers]
               Plugins.declared_ids).1 in
  Plugins.declared_ids !! 11%nat = Some "interfaces" ∧
  Plugins.class_ids st !! 11%nat = Some "interfaces" ∧
  Plugins.class_ids st !! 12%nat = Some "CheckVlans".
Proof.
  intros st. split; [reflexivity|]. split; [|reflexivity].
  destruct (load_validators_completes_class_ids
              [Plugins.mod_interfaces; Plugins.mod_peers]
              Plugins.declared_ids) as [H _].
  apply H. reflexivity.
Defined.

Lemma load_validators_registers_proper_subclasses_witness :
  let st := (Plugins.load_validators
               [Plugins.mod_interfaces; Plugins.mod_peers]
               Plugins.declared_ids).1 in
  Plugins.validators st !! "interfaces"
  = Some (Plugins.instantiate "interfaces" Plugins.CheckInterfaces) ∧
  Plugins.is_validator (Plugins.Class Plugins.CheckInterfaces) = true.
Proof.
  intros st.
  assert (H : Plugins.validators st !! "interfaces"
              = Some (Plugins.instantiate "interfaces" Plugins.CheckInterfaces))
    by reflexivity.
  split; [exact H|].
  destruct (load_validators_registers_proper_subclasses _ _ _ _ H) as [Hv _].
  exact Hv.
Defined.


Lemma validate_exit_status_is_conjunction_witness :
  let iv := λ (_ : Cli.InstanceFile) (_ : bool),
              [pass_result "a"; fail_result "b" "wrong"; pass_result "c"] in
  Cli.exit_status (Cli.validate iv [Cli.dns_file] false false) = 1.
Proof.
  intros iv.
  destruct (validate_exit_status_is_conjunction iv [Cli.dns_file] false false)
    as [_ [_ H]].
  apply H. exists (fail_result "b" "wrong"). split; [|reflexivity].
  apply elem_of_cons. right. apply elem_of_cons. by left.
Defined.

Lemma ansible_prints_what_is_shown_witness :
  ∃ st,
    Cli.ansible string Cli.string_schema Cli.example_host_vars
      Cli.example_schemas [Cli.leaf1; Cli.spine1] None false = Ret st ∧
    Cli.printed st = List.filter (shown false) (Cli.emitted st) ∧
    length (Cli.printed st) = 1%nat ∧ length (Cli.emitted st) = 2%nat.
Proof.
  eexists. split; [reflexivity|]. split; [|split; reflexivity].
  apply (ansible_prints_what_is_shown string Cli.string_schema
           Cli.example_host_vars Cli.example_schemas
           [Cli.leaf1; Cli.spine1] None false).
  reflexivity.
Defined.

Lemma ansible_limit_is_a_filter_witness :
  Forall (λ h, Cli.skipped (Some "leaf9") h = true) [Cli.leaf1; Cli.spine1] ∧
  Cli.ansible string Cli.string_schema Cli.example_host_vars
    Cli.example_schemas [Cli.leaf1; Cli.spine1] (Some "leaf9") false
  = Ret Cli.start ∧
  Cli.ansible string Cli.string_schema Cli.example_host_vars
    Cli.example_schemas [Cli.leaf1; Cli.spine1] (Some "spine1") false
  = Cli.ansible string Cli.string_schema Cli.example_host_vars
      Cli.example_schemas [Cli.spine1] None false.
Proof.
  assert (Hall : Forall (λ h, Cli.skipped (Some "leaf9") h = true)
                   [Cli.leaf1; Cli.spine1]).
  { repeat (apply Forall_cons; split; [reflexivity|]). apply Forall_nil_2. }
  split; [exact Hall|]. split.
  - destruct (ansible_limit_is_a_filter string Cli.string_schema
                Cli.example_host_vars Cli.example_schemas
                [Cli.leaf1; Cli.spine1] (Some "leaf9") false) as (_ & _ & H).
    by destruct (H Hall).
  - destruct (ansible_limit_is_a_filter string Cli.string_schema
                Cli.example_host_vars Cli.example_schemas
                [Cli.leaf1; Cli.spine1] (Some "spine1") false) as (H & _ & _).
    exact H.
Defined.

Lemma ansible_results_come_from_host_variables_witness :
  ∃ st,
    Cli.ansible string Cli.string_schema Cli.mapped_host_vars Cli.two_schemas
      [Cli.leaf1] None true = Ret st ∧
    NoDup (Cli.mapped_host_vars Cli.leaf1).*1 ∧
    Forall (λ r, instance_type r = Some "VAR" ∧
                 instance_name r ≠ Some "jsonschema_mapping")
           (Cli.emitted st).
Proof.
  eexists. split; [reflexivity|].
  assert (Hnd : NoDup (Cli.mapped_host_vars Cli.leaf1).*1).
  { apply (bool_decide_unpack _). by vm_compute. }
  split; [exact Hnd|].
  eapply Forall_impl.
  - apply (ansible_results_come_from_host_variables string Cli.string_schema
             Cli.mapped_host_vars Cli.two_schemas [Cli.leaf1] None true).
    reflexivity.
  - intros r (Ht & host & key & Hin & _ & _ & Hn & _ & Hk). split; [exact Ht|].
    apply list_elem_of_singleton in Hin. subst host.
    rewrite Hn. intros [= ->]. by apply Hk.
Defined.

Lemma ansible_exit_status_of_last_host_witness :
  Cli.skipped None Cli.spine1 = false ∧
  ∃ st,
    Cli.ansible string Cli.string_schema Cli.example_host_vars
      Cli.example_schemas ([Cli.leaf1] ++ Cli.spine1 :: []) None false = Ret st ∧
    Cli.exit_status st ≠ 1.
Proof.
  split; [reflexivity|]. eexists. split; [reflexivity|].
  destruct (ansible_exit_status_of_last_host string Cli.string_schema
              Cli.example_host_vars Cli.example_schemas
              [Cli.leaf1] Cli.spine1 [] None false _ eq_refl
              (Forall_nil_2 _) eq_refl) as (st0 & new & _ & _ & _).
  discriminate.
Defined.


Lemma unknown_schema_id_raises_KeyError_witness :
  let d := [("dns_server",
             VList [VStr "schemas/dns_server"; VStr "schemas/missing";
                    VStr "schemas/ntp_server"])] in
  dict_get "schemas/missing" Cli.two_schemas = None ∧
  Cli.check_key string Cli.string_schema false Cli.two_schemas (VDict d)
    Cli.leaf1 Cli.start ("dns_server", VStr "10.0.0.1")
  = Raise (KeyError (VStr "schemas/missing")).
Proof.
  intros d. split; [reflexivity|].
  destruct (unknown_schema_id_raises_KeyError string Cli.string_schema
              Cli.two_schemas d "dns_server" (VStr "10.0.0.1")
              ["schemas/dns_server"] "schemas/missing" ["schemas/ntp_server"]
              Cli.leaf1 Cli.start false) as [_ H];
    [reflexivity | | reflexivity | exact H].
  apply Forall_cons; split; [by eexists | apply Forall_nil_2].
Defined.

Lemma validate_command_status_witness :
  let iv := λ (_ : Cli.InstanceFile) (_ : bool), [fail_result "b" "wrong"] in
  CliMain.status
    (CliMain.validate string iv Cli.example_schemas [Cli.dns_file]
       false true false) = 0 ∧
  CliMain.status
    (CliMain.validate string iv Cli.example_schemas [Cli.dns_file]
       false false false) = 1.
Proof.
  intros iv. split.
  - destruct (validate_command_status string iv Cli.example_schemas
                [Cli.dns_file] false true false) as (_ & _ & _ & H).
    apply H. reflexivity.
  - destruct (validate_command_status string iv Cli.example_schemas
                [Cli.dns_file] false false false) as (_ & H & _).
    apply H. right. right. split; [reflexivity|].
    exists (fail_result "b" "wrong"). split; [|reflexivity].
    apply elem_of_cons. by left.
Defined.
